(** * pythonfinder: the version model, the version map and the finder

    A shallow embedding of [src/pythonfinder/models/python.py]
    ([PythonVersion], [VersionMap], [PythonFinder]) and the properties the
    specification states about them. *)

From Stdlib Require Import ZArith Lia.
From stdpp Require Import base option list gmap strings sorting.

Local Open Scope Z_scope.
Local Open Scope string_scope.

(** ** The Python runtime the code relies on *)

Module Py.

(** The exceptions the modelled code raises or lets through. *)
Inductive exn :=
  | ValueError
  | TypeError
  | KeyError
  | AttributeError
  | UnboundLocalError
  | InvalidPythonVersion
  | OSError.

#[global] Instance exn_eq_dec : EqDecision exn.
Proof. solve_decision. Defined.

(** [except (ValueError, InvalidPythonVersion)] *)
Definition is_value_or_invalid (e : exn) : bool :=
  match e with
  | ValueError | InvalidPythonVersion => true
  | _ => false
  end.

(** A call either returns or raises. *)
Inductive result (A : Type) :=
  | Ok (a : A)
  | Raise (e : exn).
Arguments Ok {A} a.
Arguments Raise {A} e.

#[global] Instance result_eq_dec `{EqDecision A} : EqDecision (result A).
Proof. solve_decision. Defined.

Definition bind {A B} (r : result A) (k : A → result B) : result B :=
  match r with
  | Ok a => k a
  | Raise e => Raise e
  end.

(** Truthiness of [str | None]: [None] and the empty string are falsy. *)
Definition truthy_str (o : option string) : bool :=
  match o with
  | Some s => negb (bool_decide (s = EmptyString))
  | None => false
  end.

(** Truthiness of [int | None]: [None] and [0] are falsy. *)
Definition truthy_int (o : option Z) : bool :=
  match o with
  | Some z => negb (bool_decide (z = 0))
  | None => false
  end.

(** [a < b] on [int | None] operands: ordering [None] against anything
    raises [TypeError]. *)
Definition lt_opt_int (a b : option Z) : result bool :=
  match a, b with
  | Some x, Some y => Ok (bool_decide (x < y))
  | _, _ => Raise TypeError
  end.

(** A character of a string is a code point below 256.  [str.isdigit()]:
    the string is not empty and every character is a digit; among these
    code points the digits are [0] to [9] and the superscripts U+00B2,
    U+00B3 and U+00B9. *)
Definition is_digit_char (c : Ascii.ascii) : bool :=
  let n := Ascii.nat_of_ascii c in
  ((Nat.leb 48 n && Nat.leb n 57)
   || Nat.eqb n 178 || Nat.eqb n 179 || Nat.eqb n 185)%bool.

Fixpoint all_digits (s : string) : bool :=
  match s with
  | EmptyString => true
  | String c s' => is_digit_char c && all_digits s'
  end.

Definition isdigit (s : string) : bool :=
  negb (bool_decide (s = EmptyString)) && all_digits s.

(** [str.startswith(prefix)] *)
Fixpoint startswith (s p : string) : bool :=
  match p, s with
  | EmptyString, _ => true
  | String c p', String d s' => bool_decide (c = d) && startswith s' p'
  | String _ _, EmptyString => false
  end.

(** [str.strip()]: drop leading and trailing whitespace; among the code
    points below 256 these are 9 to 13, 28 to 32, U+0085 and U+00A0. *)
Definition is_space (c : Ascii.ascii) : bool :=
  let n := Ascii.nat_of_ascii c in
  ((Nat.leb 9 n && Nat.leb n 13) || (Nat.leb 28 n && Nat.leb n 32)
   || Nat.eqb n 133 || Nat.eqb n 160)%bool.

Fixpoint lstrip (s : string) : string :=
  match s with
  | String c s' => if is_space c then lstrip s' else s
  | EmptyString => EmptyString
  end.

Fixpoint rstrip (s : string) : string :=
  match s with
  | EmptyString => EmptyString
  | String c s' =>
      match rstrip s' with
      | EmptyString => if is_space c then EmptyString else String c EmptyString
      | r => String c r
      end
  end.

Definition strip (s : string) : string := rstrip (lstrip s).

End Py.

Import Py.

Notation "'let!' x ':=' r 'in' k" := (Py.bind r (λ x, k))
  (at level 10, x pattern, r at level 100, k at level 200, only parsing).

(** ** PythonVersion *)

(** The attributes of a [PythonVersion] instance.  [comes_from] keeps the
    POSIX path of the entry the version was read from, which is all the
    class uses of it. *)
Record PythonVersion := {
  major : Z;
  minor : option Z;
  patch : option Z;
  is_prerelease : bool;
  is_postrelease : bool;
  is_devrelease : bool;
  is_debug : bool;
  version : option string;
  architecture : option string;
  comes_from : option string;
  executable : option string;
  company : option string;
  name : option string;
}.

#[global] Instance PythonVersion_eq_dec : EqDecision PythonVersion.
Proof. solve_decision. Defined.

(** The tuple [version_sort] returns:
    [(company_sort, major, minor, patch or 0, release_sort)]. *)
Definition sort_key : Type := Z * Z * option Z * Z * Z.

(** The tuple of [PythonVersion.version_sort] made of the attribute values
    as they are stored.  This is what the property returns where its reads
    of [minor] and [patch] return what is stored: on an instance that has
    both, or that knows no executable ([version_sort_property_settled]).
    The property as it runs on any instance, with these two reads going
    through [__getattribute__], is [version_sort_property]. *)
Definition version_sort (self : PythonVersion) : sort_key :=
  let company_sort :=
    if truthy_str (company self) && bool_decide (company self = Some "PythonCore")
    then 1 else 0 in
  let release_sort :=
    if is_postrelease self then 3
    else if is_prerelease self then 1
    else if is_devrelease self then 0
    else if is_debug self then 1
    else 2 in
  (company_sort,
   major self,
   minor self,
   (if truthy_int (patch self) then default 0 (patch self) else 0),
   release_sort).

(** The tuple of [PythonVersion.version_tuple] made of the attribute
    values as they are stored: what the property returns where its reads of
    [minor] and [patch] return what is stored
    ([version_tuple_property_settled]).  The property as it runs on any
    instance is [version_tuple_property]. *)
Definition dedup_key : Type := Z * option Z * option Z * bool * bool * bool.

Definition version_tuple (self : PythonVersion) : dedup_key :=
  (major self, minor self, patch self,
   is_prerelease self, is_devrelease self, is_debug self).

(** [k1 < k2] on two [version_sort] tuples, as Python compares tuples: the
    first position where the items are not equal decides, by [<] on those
    two items; equal tuples are not less. *)
Definition key_lt (k1 k2 : sort_key) : result bool :=
  let '(c1, M1, m1, p1, r1) := k1 in
  let '(c2, M2, m2, p2, r2) := k2 in
  if negb (bool_decide (c1 = c2)) then Ok (bool_decide (c1 < c2))
  else if negb (bool_decide (M1 = M2)) then Ok (bool_decide (M1 < M2))
  else if negb (bool_decide (m1 = m2)) then lt_opt_int m1 m2
  else if negb (bool_decide (p1 = p2)) then Ok (bool_decide (p1 < p2))
  else if negb (bool_decide (r1 = r2)) then Ok (bool_decide (r1 < r2))
  else Ok false.
#[global] Arguments key_lt : simpl never.

(** *** Dictionaries and the class-level caches *)

(** The values the version dictionaries hold.  [VVersion] stands for a
    [packaging.version.Version] object, [VEntry] for a [PathEntry] (by its
    POSIX path). *)
Inductive pyval :=
  | VNone
  | VBool (b : bool)
  | VInt (z : Z)
  | VStr (s : string)
  | VVersion (s : string)
  | VEntry (p : string).

#[global] Instance pyval_eq_dec : EqDecision pyval.
Proof. solve_decision. Defined.

#[global] Instance pyval_countable : Countable pyval.
Proof.
  refine (inj_countable'
    (λ v, match v with
          | VNone => inl ()
          | VBool b => inr (inl b)
          | VInt z => inr (inr (inl z))
          | VStr s => inr (inr (inr (inl s)))
          | VVersion s => inr (inr (inr (inr (inl s))))
          | VEntry p => inr (inr (inr (inr (inr p))))
          end)
    (λ x, match x with
          | inl () => VNone
          | inr (inl b) => VBool b
          | inr (inr (inl z)) => VInt z
          | inr (inr (inr (inl s))) => VStr s
          | inr (inr (inr (inr (inl s)))) => VVersion s
          | inr (inr (inr (inr (inr p)))) => VEntry p
          end) _).
  by intros [].
Defined.

(** A Python [dict] with string keys. *)
Abbreviation dict := (gmap string pyval).

(** [d.get(k)] *)
Definition dict_get (d : dict) (k : string) : pyval := default VNone (d !! k).

(** [bool(v)] *)
Definition truthy (v : pyval) : bool :=
  match v with
  | VNone => false
  | VBool b => b
  | VInt z => negb (bool_decide (z = 0))
  | VStr s => negb (bool_decide (s = EmptyString))
  | VVersion _ | VEntry _ => true
  end.

(** Reading a dictionary value into an attribute of the record: an
    [int | None] attribute, a flag, a [str | None] attribute. *)
Definition as_int (v : pyval) : option Z :=
  match v with
  | VInt z => Some z
  | VBool b => Some (if b then 1 else 0)
  | _ => None
  end.

Definition as_str (v : pyval) : option string :=
  match v with
  | VStr s | VVersion s | VEntry s => Some s
  | _ => None
  end.

Definition of_int (o : option Z) : pyval := from_option VInt VNone o.
Definition of_str (o : option string) : pyval := from_option VStr VNone o.

(** A [pathlib.Path], absolute, as its components below the root. *)
Abbreviation Path := (list string).

(** [p.name]: the last component, or the empty string. *)
Definition path_name (p : Path) : string := default EmptyString (last p).

(** [p.parent] *)
Definition path_parent (p : Path) : Path := removelast p.

(** [p.as_posix()] *)
Definition as_posix (p : Path) : string :=
  match p with
  | [] => "/"
  | _ => foldr (λ c acc, "/" ++ c ++ acc) EmptyString p
  end.

(** What the code takes from outside this module: [utils], [environment],
    the standard library's [platform] and [sys], and the attributes every
    object of the class has from [object] and [attrs]. *)
Record Env := {
  (** [utils.parse_python_version]: the parsed fields, or an exception *)
  parse_python_version : string → result dict;
  (** [utils.get_python_version]: runs the executable and returns its
      version string *)
  get_python_version : string → result (option string);
  (** [utils.looks_like_python] *)
  looks_like_python : string → bool;
  (** [utils.guess_company] *)
  guess_company : string → option string;
  (** [environment.IGNORE_UNSUPPORTED] *)
  IGNORE_UNSUPPORTED : bool;
  (** [platform.architecture(path)[0]] *)
  platform_architecture : string → string;
  (** [sys.executable] *)
  sys_executable : string;
  (** For a name that is neither a field, a property nor a method written
      in the class: [None] when [getattr] finds no attribute of that name
      on an instance; otherwise the exception [setattr] raises for it (the
      class has slots, so an attribute it gets from [object] or [attrs]
      cannot be set on an instance). *)
  other_attribute : string → option exn;
}.

(** What the class reads of a [PathEntry]: its path, its name, whether it
    is a Python executable, and the version resolved for it. *)
Record PathEntry := {
  path : Path;
  entry_name : string;
  is_python : bool;
  as_python : option PythonVersion;
}.

#[global] Instance PathEntry_eq_dec : EqDecision PathEntry.
Proof. solve_decision. Defined.

(** The arguments of [PythonVersion.matches]. *)
Record predicate := {
  p_major : option Z;
  p_minor : option Z;
  p_patch : option Z;
  p_pre : option bool;
  p_dev : option bool;
  p_arch : option string;
  p_debug : option bool;
  p_python_name : option string;
}.

(** The state shared by all instances: the dictionaries handed out by
    [parse_python_version] (objects, addressed by position), the two
    [lru_cache] tables of [parse] and [parse_executable] (most recently
    used first), and the executables probed so far. *)
Record World := {
  heap : list dict;
  parse_cache : list (string * nat);
  exe_cache : list (string * nat);
  probes : list string;
}.

Definition empty_world : World :=
  {| heap := []; parse_cache := []; exe_cache := []; probes := [] |}.

Definition set_heap (h : list dict) (w : World) : World :=
  {| heap := h; parse_cache := parse_cache w; exe_cache := exe_cache w; probes := probes w |}.
Definition set_parse_cache (c : list (string * nat)) (w : World) : World :=
  {| heap := heap w; parse_cache := c; exe_cache := exe_cache w; probes := probes w |}.
Definition set_exe_cache (c : list (string * nat)) (w : World) : World :=
  {| heap := heap w; parse_cache := parse_cache w; exe_cache := c; probes := probes w |}.
Definition log_probe (path : string) (w : World) : World :=
  {| heap := heap w; parse_cache := parse_cache w; exe_cache := exe_cache w;
     probes := probes w ++ [path] |}.

(** The dictionary object a reference points to. *)
Definition deref (w : World) (r : nat) : dict := default ∅ (heap w !! r).

(** Stateful calls: the world after the call, and its outcome. *)
Definition M (A : Type) : Type := World → World * result A.

(** [functools.lru_cache(maxsize=1024)]: a hit returns the stored object
    and makes the key the most recent one; a miss calls the function and
    stores what it returns, dropping the least recent key when full; an
    exception is not stored. *)
Definition maxsize : nat := 1024.

Definition lru_lookup (k : string) (c : list (string * nat)) : option nat :=
  (λ ikv, ikv.2.2) <$> list_find (λ kv, kv.1 = k) c.

Definition lru_touch (k : string) (r : nat) (c : list (string * nat)) : list (string * nat) :=
  (k, r) :: filter (λ kv, kv.1 ≠ k) c.

Definition lru_store (k : string) (r : nat) (c : list (string * nat)) : list (string * nat) :=
  take maxsize ((k, r) :: c).

Definition lru_cache (sel : World → list (string * nat))
    (upd : list (string * nat) → World → World)
    (f : string → M nat) (k : string) : M nat :=
  λ w,
    match lru_lookup k (sel w) with
    | Some r => (upd (lru_touch k r (sel w)) w, Ok r)
    | None =>
        match f k w with
        | (w', Ok r) => (upd (lru_store k r (sel w')) w', Ok r)
        | (w', Raise e) => (w', Raise e)
        end
    end.

Section version_model.
Context (env : Env).

(** [PythonVersion.parse], the function under [lru_cache].  The argument
    is a [str], so the [None] check does not fire. *)
Definition parse_uncached (version : string) : M nat :=
  λ w,
    match parse_python_version env version with
    | Raise e => (w, Raise e)
    | Ok version_dict =>
        if bool_decide (version_dict = ∅) then (w, Raise ValueError)
        else (set_heap (heap w ++ [version_dict]) w, Ok (length (heap w)))
    end.

(** [PythonVersion.parse] *)
Definition parse : string → M nat :=
  lru_cache parse_cache set_parse_cache parse_uncached.

(** [PythonVersion.parse_executable], the function under [lru_cache]:
    every call of it probes the executable. *)
Definition parse_executable_uncached (path : string) : M nat :=
  λ w,
    let w := log_probe path w in
    match get_python_version env path with
    | Raise _ => (w, Raise ValueError)
    | Ok None => (w, Raise ValueError)
    | Ok (Some result_version) => parse (strip result_version) w
    end.

(** [PythonVersion.parse_executable] *)
Definition parse_executable : string → M nat :=
  lru_cache exe_cache set_exe_cache parse_executable_uncached.

(** The attribute names of the class (its slots). *)
Definition attribute_names : list string :=
  ["major"; "minor"; "patch"; "is_prerelease"; "is_postrelease";
   "is_devrelease"; "is_debug"; "version"; "architecture"; "comes_from";
   "executable"; "company"; "name"].

(** [for k in d.keys(): setattr(self, k, d[k])], for the keys that are
    attributes of the class; the other keys are passed over. *)
Definition setattrs (d : dict) (self : PythonVersion) : PythonVersion :=
  let int_attr k old := from_option as_int old (d !! k) in
  let flag_attr k old := from_option truthy old (d !! k) in
  let str_attr k old := from_option as_str old (d !! k) in
  {| major := from_option (λ v, default (major self) (as_int v)) (major self) (d !! "major");
     minor := int_attr "minor" (minor self);
     patch := int_attr "patch" (patch self);
     is_prerelease := flag_attr "is_prerelease" (is_prerelease self);
     is_postrelease := flag_attr "is_postrelease" (is_postrelease self);
     is_devrelease := flag_attr "is_devrelease" (is_devrelease self);
     is_debug := flag_attr "is_debug" (is_debug self);
     version := str_attr "version" (version self);
     architecture := str_attr "architecture" (architecture self);
     comes_from := str_attr "comes_from" (comes_from self);
     executable := str_attr "executable" (executable self);
     company := str_attr "company" (company self);
     name := str_attr "name" (name self) |}.

(** The attribute defaults of [attr.ib]. *)
Definition default_version : PythonVersion :=
  {| major := 0; minor := None; patch := None;
     is_prerelease := false; is_postrelease := false;
     is_devrelease := false; is_debug := false;
     version := None; architecture := None; comes_from := None;
     executable := None; company := None; name := None |}.

(** The constructor call on the keywords of [d]: a keyword that is not an
    attribute is a [TypeError]. *)
Definition of_dict (d : dict) : result PythonVersion :=
  if bool_decide (dom d ⊆ list_to_set attribute_names)
  then Ok (setattrs d default_version)
  else Raise TypeError.

(** The dictionary of [PythonVersion.as_dict] made of the attribute values
    as they are stored: what the method returns where its reads of [minor]
    and [patch] return what is stored ([as_dict_call_settled]).  The method
    as it runs on any instance is [as_dict_call]. *)
Definition as_dict (self : PythonVersion) : dict :=
  <["major" := VInt (major self)]>
  (<["minor" := of_int (minor self)]>
  (<["patch" := of_int (patch self)]>
  (<["is_prerelease" := VBool (is_prerelease self)]>
  (<["is_postrelease" := VBool (is_postrelease self)]>
  (<["is_devrelease" := VBool (is_devrelease self)]>
  (<["is_debug" := VBool (is_debug self)]>
  (<["version" := from_option VVersion VNone (version self)]>
  (<["company" := of_str (company self)]> ∅)))))))).

(** The two attributes [__getattribute__] resolves lazily. *)
Inductive lazy_field := Minor | Patch.

Definition field_name (key : lazy_field) : string :=
  match key with Minor => "minor" | Patch => "patch" end.

Definition stored (key : lazy_field) (self : PythonVersion) : option Z :=
  match key with Minor => minor self | Patch => patch self end.

(** The executable [__getattribute__] probes: [self.executable] if it is
    set and not empty, else the path of [self.comes_from] if there is one. *)
Definition known_executable (self : PythonVersion) : option string :=
  if truthy_str (executable self) then executable self
  else comes_from self.

(** [PythonVersion.__getattribute__] for [key] in [["minor", "patch"]]:
    the value read and the instance after the read. *)
Definition __getattribute__ (key : lazy_field) (self : PythonVersion) : M (option Z * PythonVersion) :=
  λ w,
    let result := stored key self in
    match result with
    | Some _ => (w, Ok (result, self))
    | None =>
        match known_executable self with
        | None => (w, Ok (result, self))
        | Some exe =>
            match parse_executable exe w with
            | (w', Raise e) => (w', Raise e)
            | (w', Ok r) =>
                let instance_dict := deref w' r in
                (w', Ok (as_int (dict_get instance_dict (field_name key)),
                         setattrs instance_dict self))
            end
        end
    end.

(** [PythonVersion.version_sort] as the property runs on an instance:
    the flags and [major] are read first, then [minor] and [patch] go
    through [__getattribute__]. *)
Definition version_sort_property (self : PythonVersion) : M (sort_key * PythonVersion) :=
  λ w,
    let '(c, M, _, _, r) := version_sort self in
    match __getattribute__ Minor self w with
    | (w1, Raise e) => (w1, Raise e)
    | (w1, Ok (m, self1)) =>
        match __getattribute__ Patch self1 w1 with
        | (w2, Raise e) => (w2, Raise e)
        | (w2, Ok (p, self2)) =>
            (w2, Ok ((c, M, m, (if truthy_int p then default 0 p else 0), r), self2))
        end
    end.

(** [PythonVersion.get_architecture]: the architecture, and the instance
    with the answer stored on it. *)
Definition get_architecture (self : PythonVersion) : string * PythonVersion :=
  if truthy_str (architecture self) then (default EmptyString (architecture self), self)
  else
    let arch :=
      match comes_from self, executable self with
      | Some p, _ => platform_architecture env p
      | None, Some e => platform_architecture env e
      | None, None => platform_architecture env (sys_executable env)
      end in
    (arch,
     {| major := major self; minor := minor self; patch := patch self;
        is_prerelease := is_prerelease self; is_postrelease := is_postrelease self;
        is_devrelease := is_devrelease self; is_debug := is_debug self;
        version := version self; architecture := Some arch;
        comes_from := comes_from self; executable := executable self;
        company := company self; name := name self |}).

(** The answer of [PythonVersion.matches] from the attribute values as
    they are stored: what the method returns where its reads of [minor]
    and [patch] return what is stored, which is so when the predicate asks
    for neither, or for fields the instance has stored, or the instance
    knows no executable ([matches_call_stored]).  The
    method as it runs on any instance, with the reads and what they do to
    the instance, is [matches_call].  [own_arch] is bound only in the
    branch [if arch:]; reading it unbound raises [UnboundLocalError].  The
    conjunction is evaluated left to right and stops at the first false
    clause. *)
Definition matches (self : PythonVersion) (p : predicate) : result bool :=
  let '(own_arch, arch) :=
    if truthy_str (p_arch p)
    then (Some (get_architecture self).1,
          (λ a, if isdigit a then a ++ "bit" else a) <$> p_arch p)
    else (None, p_arch p) in
  if (bool_decide (p_major p = None) || bool_decide (Some (major self) = p_major p))
     && (bool_decide (p_minor p = None) || bool_decide (minor self = p_minor p))
     && (bool_decide (p_patch p = None) || bool_decide (patch self = p_patch p))
     && (bool_decide (p_pre p = None) || bool_decide (Some (is_prerelease self) = p_pre p))
     && (bool_decide (p_dev p = None) || bool_decide (Some (is_devrelease self) = p_dev p))
  then
    let! arch_clause :=
      match arch with
      | None => Ok true
      | Some a =>
          match own_arch with
          | None => Raise UnboundLocalError
          | Some o => Ok (bool_decide (o = a))
          end
      end in
    Ok (arch_clause
        && (bool_decide (p_debug p = None) || bool_decide (Some (is_debug self) = p_debug p))
        && match p_python_name p with
           | None => true
           | Some python_name =>
               truthy_str (Some python_name) && truthy_str (name self)
               && (bool_decide (name self = Some python_name)
                   || startswith (default EmptyString (name self)) python_name)
           end)
  else Ok false.

(** [PythonVersion.from_path], for a [path] that is a [PathEntry]. *)
Definition from_path (entry : PathEntry) (name : option string)
    (ignore_unsupported : bool) (company : option string) : M PythonVersion :=
  λ w,
    let ignore_unsupported := ignore_unsupported || IGNORE_UNSUPPORTED env in
    let path_name' := entry_name entry in
    let posix := as_posix (path entry) in
    if negb (is_python entry) && negb (ignore_unsupported || IGNORE_UNSUPPORTED env)
    then (w, Raise ValueError)
    else
      let '(w1, r1) :=
        match parse path_name' w with
        | (w', Raise _) => parse_executable posix w'
        | (w', Ok d) =>
            if bool_decide (dict_get (deref w' d) "minor" = VNone)
               && looks_like_python env (path_name (path entry))
            then parse_executable posix w'
            else (w', Ok d)
        end in
      match r1 with
      | Raise e => (w1, Raise e)
      | Ok d1 =>
          if negb (if dict_get (deref w1 d1) "version" is VVersion _ then true else false)
             && negb ignore_unsupported
          then (w1, Raise ValueError)
          else
            let '(w2, r2) :=
              if bool_decide (dict_get (deref w1 d1) "patch" = VNone)
              then parse_executable posix w1
              else (w1, Ok d1) in
            match r2 with
            | Raise e => (w2, Raise e)
            | Ok instance_dict =>
                let name := default path_name' name in
                let company := if company is None then guess_company env posix else company in
                let updated :=
                  <["executable" := VStr posix]>
                  (<["name" := VStr name]>
                  (<["comes_from" := VEntry posix]> (deref w2 instance_dict))) in
                let w3 := set_heap (<[instance_dict := updated]> (heap w2)) w2 in
                (w3, of_dict (deref w3 instance_dict))
            end
      end.

End version_model.

(** *** Sorting by [version_sort] *)

(** [sorted(l, key=..., reverse=True)] over elements paired with their
    keys.  The sort compares keys with [<] only and is stable, also when
    reversed: the result is in descending order and elements with equal
    keys keep their order.  It raises when a comparison does.  Written as
    an insertion from the right, which yields that result. *)
Fixpoint insert_desc {A} (x : sort_key * A) (l : list (sort_key * A))
    : result (list (sort_key * A)) :=
  match l with
  | [] => Ok [x]
  | y :: l' =>
      let! less := key_lt x.1 y.1 in
      if less : bool then (let! rest := insert_desc x l' in Ok (y :: rest))
      else Ok (x :: y :: l')
  end.

Fixpoint sorted_desc {A} (l : list (sort_key * A)) : result (list (sort_key * A)) :=
  match l with
  | [] => Ok []
  | x :: l' => let! s := sorted_desc l' in insert_desc x s
  end.

(** The key of an entry from the attribute values its version has stored:
    what [operator.attrgetter("as_python.version_sort")] returns for an
    entry whose version is settled.  The key function as it runs on any
    entry is [version_sort_getter]. *)
Definition version_sort_of (p : PathEntry) : result sort_key :=
  match as_python p with
  | Some v => Ok (version_sort v)
  | None => Raise AttributeError
  end.

(** The keys of a list, computed left to right. *)
Fixpoint with_keys (l : list PathEntry) : result (list (sort_key * PathEntry)) :=
  match l with
  | [] => Ok []
  | p :: l' =>
      let! k := version_sort_of p in
      let! rest := with_keys l' in
      Ok ((k, p) :: rest)
  end.

(** [sorted(pythons, key=version_sort, reverse=True)] on the keys of the
    stored values: what the call returns for entries whose versions are
    settled ([sorted_reverse_settled]).  The call as it runs on any
    entries, the key function reading the property of each, is
    [sorted_reverse]. *)
Definition sorted_by_version (pythons : list PathEntry) : result (list PathEntry) :=
  let! keyed := with_keys pythons in
  let! s := sorted_desc keyed in
  Ok (s.*2).

(** ** VersionMap *)

(** [VersionMap.versions] is a [defaultdict]: a dictionary together with
    its [default_factory], which is [None] or a callable. *)
Record VersionMap := {
  default_factory : option (unit → list PathEntry);
  versions : gmap dedup_key (list PathEntry);
}.

(** [VersionMap()]: the attribute default is [attr.ib(factory=defaultdict)],
    that is [defaultdict()], whose [default_factory] is [None]. *)
Definition VersionMap_new : VersionMap :=
  {| default_factory := None; versions := ∅ |}.

(** [VersionMap(versions=defaultdict(list))] *)
Definition VersionMap_of_lists : VersionMap :=
  {| default_factory := Some (λ _, []); versions := ∅ |}.

Definition set_versions (m : gmap dedup_key (list PathEntry)) (self : VersionMap) : VersionMap :=
  {| default_factory := default_factory self; versions := m |}.

(** [self.versions[k]]: a missing key is filled by the factory, or is a
    [KeyError] when there is none. *)
Definition getitem (self : VersionMap) (k : dedup_key) : result (list PathEntry * VersionMap) :=
  match versions self !! k with
  | Some l => Ok (l, self)
  | None =>
      match default_factory self with
      | None => Raise KeyError
      | Some f => Ok (f (), set_versions (<[k := f ()]> (versions self)) self)
      end
  end.

(** [VersionMap.add_entry] *)
Definition add_entry (self : VersionMap) (entry : PathEntry) : result VersionMap :=
  match as_python entry with
  | None => Ok self
  | Some version =>
      let! got := getitem self (version_tuple version) in
      let self := got.2 in
      let paths : gset Path :=
        list_to_set (path <$> default [] (versions self !! version_tuple version)) in
      if bool_decide (path entry ∉ paths)
      then
        let! got := getitem self (version_tuple version) in
        let self := got.2 in
        Ok (set_versions (<[version_tuple version := (got.1 ++ [entry])%list]> (versions self)) self)
      else Ok self
  end.

(** The body of the loop of [VersionMap.merge]. *)
Definition merge_step (version : dedup_key) (entries : list PathEntry)
    (self : gmap dedup_key (list PathEntry)) : gmap dedup_key (list PathEntry) :=
  match self !! version with
  | None => <[version := entries]> self
  | Some current =>
      let current_entries : gset Path := list_to_set (path <$> current) in
      let new_entries : gset Path := list_to_set (path <$> entries) ∖ current_entries in
      <[version := (current ++ filter (λ e, path e ∈ new_entries) entries)%list]> self
  end.

(** [VersionMap.merge]: the loop over [target.versions.items()]. *)
Definition merge (self target : VersionMap) : VersionMap :=
  set_versions (map_fold merge_step (versions self) (versions target)) self.

(** ** PythonFinder *)

(** A root entry made by [PathEntry.create(..., is_root=True)], with what
    its [find_all_python_versions()] enumerates. *)
Record RootEntry := {
  entry : PathEntry;
  found : list PathEntry;
}.

(** The file system and the environment the finder looks at. *)
Record Host := {
  (** [root.glob(pattern)], in the order the file system gives *)
  glob : Path → string → list Path;
  (** [utils.is_in_path] *)
  is_in_path : string → string → bool;
  (** [environment.PYENV_ROOT], [environment.ASDF_DATA_DIR] *)
  PYENV_ROOT : string;
  ASDF_DATA_DIR : string;
  (** [utils.parse_pyenv_version_order()], [utils.parse_asdf_version_order()] *)
  parse_pyenv_version_order : list string;
  parse_asdf_version_order : list string;
  (** [os.name] *)
  os_name : string;
  (** [p.exists() and p.is_dir()] *)
  exists_dir : Path → bool;
  (** [PathEntry.create(path=..., only_python=False, name=..., is_root=True)] *)
  create_entry : Path → string → RootEntry;
}.

(** The key of [PythonFinder._versions]: the six [version.get(...)]. *)
Definition version_key : Type := pyval * pyval * pyval * pyval * pyval * pyval.

(** The attributes of a [PythonFinder] the modelled operations read or
    write.  [is_dir] is the property inherited from [BasePath].  [roots]
    and [_pythons], which these operations only write or do not touch, are
    left out. *)
Record PythonFinder := {
  root : Path;
  ignore_unsupported : bool;
  version_glob_path : string;
  paths : list RootEntry;
  _versions : gmap version_key RootEntry;
  is_dir : bool;
}.

Definition set__versions (m : gmap version_key RootEntry) (self : PythonFinder) : PythonFinder :=
  {| root := root self; ignore_unsupported := ignore_unsupported self;
     version_glob_path := version_glob_path self; paths := paths self;
     _versions := m; is_dir := is_dir self |}.

(** [list.remove(x)]: drops the first occurrence. *)
Fixpoint remove_first (x : Path) (l : list Path) : list Path :=
  match l with
  | [] => []
  | y :: l' => if bool_decide (x = y) then l' else y :: remove_first x l'
  end.

(** The arguments of [find_all_python_versions]. *)
Record query := {
  q_major : option Z;
  q_minor : option Z;
  q_patch : option Z;
  q_pre : option bool;
  q_dev : option bool;
  q_arch : option string;
  q_name : option string;
}.

(** The call [matches(major, minor, patch, pre, dev, arch, python_name=name)]:
    [debug] keeps its default [False]. *)
Definition to_predicate (q : query) : predicate :=
  {| p_major := q_major q; p_minor := q_minor q; p_patch := q_patch q;
     p_pre := q_pre q; p_dev := q_dev q; p_arch := q_arch q;
     p_debug := Some false; p_python_name := q_name q |}.


Section finder.
Context (env : Env) (host : Host).

(** [PythonFinder.is_pyenv], [PythonFinder.is_asdf] *)
Definition is_pyenv (self : PythonFinder) : bool :=
  is_in_path host (as_posix (root self)) (PYENV_ROOT host).
Definition is_asdf (self : PythonFinder) : bool :=
  is_in_path host (as_posix (root self)) (ASDF_DATA_DIR host).

(** [PythonFinder.get_version_order] *)
Definition get_version_order (self : PythonFinder) : list Path :=
  let version_paths :=
    filter (λ p, ¬ (path_name (path_parent p) = "envs" ∨ path_name p = "envs"))
           (glob host (root self) (version_glob_path self)) in
  let versions : gmap string Path :=
    foldl (λ m v, <[path_name v := v]> m) ∅ version_paths in
  let version_order :=
    if is_pyenv self
    then omap (λ v, versions !! v) (parse_pyenv_version_order host)
    else if is_asdf self
    then omap (λ v, versions !! v) (parse_asdf_version_order host)
    else [] in
  let version_paths :=
    foldl (λ vp version,
             if bool_decide (version ∈ vp) then remove_first version vp else vp)
          version_paths version_order in
  if bool_decide (version_order ≠ []) then (version_order ++ version_paths)%list
  else version_paths.

(** [PythonFinder.get_bin_dir] *)
Definition get_bin_dir (base : Path) : Path :=
  if bool_decide (os_name host = "nt") then base else (base ++ ["bin"])%list.

(** [PythonFinder._iter_version_bases]: what the generator yields. *)
Definition _iter_version_bases (self : PythonFinder) : list (Path * RootEntry) :=
  omap (λ p,
          let bin_dir := get_bin_dir p in
          if exists_dir host bin_dir
          then Some (p, create_entry host bin_dir (path_name p))
          else None)
       (get_version_order self).

(** [PythonFinder.get_paths], the default of [paths]. *)
Definition get_paths (self : PythonFinder) : list RootEntry :=
  (_iter_version_bases self).*2.

(** How one round of the loop of [_iter_versions] ends: with a [yield],
    with [continue] (or with no version to yield), or with an exception. *)
Inductive round :=
  | Yielded (item : Path * RootEntry * version_key)
  | Skipped
  | Raised (e : exn).

(** The body of the loop, from [version = None] to the [yield].  In the
    first handler [version] is still the [None] it was set to, the
    assignment under [try] having raised; the test [if version is None] is
    written as it stands in the source. *)
Definition _iter_versions_round (self : PythonFinder) (base : Path * RootEntry)
    : World → World * round :=
  λ w,
    let '(base_path, entry') := base in
    let version : option dict := None in
    let version_entry : option PathEntry := None in
    let yield (version : option dict) :=
      match version with
      | Some version =>
          Yielded (base_path, entry',
                   (dict_get version "major", dict_get version "minor",
                    dict_get version "patch", dict_get version "is_prerelease",
                    dict_get version "is_devrelease", dict_get version "is_debug"))
      | None => Skipped
      end in
    match parse env (entry_name (entry entry')) w with
    | (w', Ok r) => (w', yield (Some (deref w' r)))
    | (w', Raise e) =>
        if is_value_or_invalid e then
          let version_entry := head (found entry') in
          match version with
          | None => (w', if negb (ignore_unsupported self) then Raised e else Skipped)
          | Some _ =>
              match version_entry with
              | Some ve => (w', yield (as_dict <$> as_python ve))
              | None => (w', yield version)
              end
          end
        else (w', if negb (ignore_unsupported self) then Raised e else Skipped)
    end.

(** [PythonFinder._iter_versions]: the items yielded, in order, and the
    exception that ended the generator, if one did. *)
Fixpoint _iter_versions_from (self : PythonFinder) (bases : list (Path * RootEntry))
    : World → World * (list (Path * RootEntry * version_key) * option exn) :=
  λ w,
    match bases with
    | [] => (w, ([], None))
    | base :: bases' =>
        match _iter_versions_round self base w with
        | (w1, Yielded item) =>
            let '(w2, (items, e)) := _iter_versions_from self bases' w1 in
            (w2, (item :: items, e))
        | (w1, Skipped) => _iter_versions_from self bases' w1
        | (w1, Raised e) => (w1, ([], Some e))
        end
    end.

Definition _iter_versions (self : PythonFinder)
    : World → World * (list (Path * RootEntry * version_key) * option exn) :=
  _iter_versions_from self (_iter_version_bases self).

(** [PythonFinder.versions]: the mapping returned (or the exception), and
    the finder with its cache as the property leaves it. *)
Definition versions_property (self : PythonFinder)
    : World → World * (result (gmap version_key RootEntry) * PythonFinder) :=
  λ w,
    if bool_decide (_versions self = ∅) then
      let '(w', (items, e)) := _iter_versions self w in
      let self' :=
        set__versions
          (foldl (λ m '(_, entry', version_tuple'), <[version_tuple' := entry']> m)
                 (_versions self) items) self in
      (w', (match e with None => Ok (_versions self') | Some e => Raise e end, self'))
    else (w, (Ok (_versions self), self)).

End finder.





(** ** Notions the statements use *)

(** What [merge] leaves under a key, from what the two maps hold there. *)
Definition merged (mine theirs : option (list PathEntry)) : option (list PathEntry) :=
  match mine, theirs with
  | Some mine, Some theirs =>
      Some (mine ++ filter (λ e, path e ∉ path <$> mine) theirs)%list
  | Some mine, None => Some mine
  | None, theirs => theirs
  end.

(** No list of the map holds two entries with the same path. *)
Definition distinct_paths (self : VersionMap) : Prop :=
  ∀ k l, versions self !! k = Some l → NoDup (path <$> l).

(** [a] is not below [b]: comparing their keys by [<] answers no. *)
Definition key_ge {A} (a b : sort_key * A) : Prop := key_lt a.1 b.1 = Ok false.

(** An instance on which a read of [minor] or of [patch] returns what is
    stored: the field is set, or the instance knows no executable to ask. *)
Definition settled (self : PythonVersion) : Prop :=
  (is_Some (minor self) ∨ known_executable self = None)
  ∧ (is_Some (patch self) ∨ known_executable self = None).

#[global] Instance settled_dec (self : PythonVersion) : Decision (settled self).
Proof. unfold settled. apply _. Defined.

(** An entry whose key the sort reads and compares without asking an
    executable: its version is settled and has its [minor]. *)
Definition ready (p : PathEntry) : Prop :=
  match as_python p with
  | Some v => settled v ∧ is_Some (minor v)
  | None => False
  end.

#[global] Instance ready_dec (p : PathEntry) : Decision (ready p).
Proof. unfold ready. destruct (as_python p); apply _. Defined.

(** [sorted] holds the elements of [keyed] in descending order of their
    keys, those with equal keys in the order they have in [keyed]. *)
Definition stable_descending {A} (keyed sorted : list (sort_key * A)) : Prop :=
  sorted ≡ₚ keyed
  ∧ StronglySorted key_ge sorted
  ∧ ∀ k, filter (λ kp, kp.1 = k) sorted = filter (λ kp, kp.1 = k) keyed.

(** The version numbers of a key: [(major, minor, patch or 0)]. *)
Definition numbers (k : sort_key) : Z * option Z * Z :=
  (k.1.1.1.2, k.1.1.2, k.1.2).

(** Two entries for the same location: they differ at most in the state
    of the version they hold. *)
Definition same_location (p q : PathEntry) : Prop :=
  path p = path q ∧ entry_name p = entry_name q ∧ is_python p = is_python q.



(** ** A sample installation

    A pyenv tree [/opt/pyenv/versions] with four installations, used to
    run the definitions on concrete inputs. *)

Module Sample.

Definition fields (M m p : Z) (post : bool) (text : string) : dict :=
  list_to_map
    [("major", VInt M); ("minor", VInt m); ("patch", VInt p);
     ("is_postrelease", VBool post); ("is_prerelease", VBool false);
     ("is_devrelease", VBool false); ("is_debug", VBool false);
     ("version", VVersion text)].

Definition release (M m p : Z) (post : bool) (text exe : string) : PythonVersion :=
  {| major := M; minor := Some m; patch := Some p;
     is_prerelease := false; is_postrelease := post;
     is_devrelease := false; is_debug := false;
     version := Some text; architecture := None; comes_from := Some exe;
     executable := Some exe; company := None; name := Some "python" |}.

Definition versions_dir : Path := ["opt"; "pyenv"; "versions"].

Definition python_of (dir : string) (v : string → PythonVersion) : PathEntry :=
  let p := (versions_dir ++ [dir; "bin"; "python"])%list in
  {| path := p; entry_name := "python"; is_python := true;
     as_python := Some (v (as_posix p)) |}.

Definition python380 : PathEntry := python_of "3.8.0" (release 3 8 0 false "3.8.0").
Definition python390 : PathEntry := python_of "3.9.0" (release 3 9 0 false "3.9.0").
Definition python390post : PathEntry :=
  python_of "3.9.0.post1" (release 3 9 0 true "3.9.0.post1").
Definition python391 : PathEntry := python_of "system" (release 3 9 1 false "3.9.1").

Definition env : Env :=
  {| parse_python_version := λ s,
       if bool_decide (s = "3.8.0") then Ok (fields 3 8 0 false s)
       else if bool_decide (s = "3.9.0") then Ok (fields 3 9 0 false s)
       else if bool_decide (s = "3.9.0.post1") then Ok (fields 3 9 0 true s)
       else if bool_decide (s = "3.9.1") then Ok (fields 3 9 1 false s)
       else Raise InvalidPythonVersion;
     get_python_version := λ exe,
       if bool_decide (exe = as_posix (path python391)) then Ok (Some "3.9.1")
       else Raise OSError;
     looks_like_python := λ s, startswith s "python";
     guess_company := λ _, None;
     IGNORE_UNSUPPORTED := false;
     platform_architecture := λ _, "64bit";
     sys_executable := "/usr/bin/python3";
     other_attribute := λ n,
       if bool_decide (n = "__class__") then Some TypeError
       else if startswith n "__" then Some AttributeError
       else None |}.

Definition host : Host :=
  {| glob := λ r _, (λ d, r ++ ["versions"; d])%list
                      <$> ["3.8.0"; "3.9.0"; "3.9.0.post1"; "system"; "envs"];
     is_in_path := λ p r, startswith p r;
     PYENV_ROOT := "/opt/pyenv";
     ASDF_DATA_DIR := "/opt/asdf";
     parse_pyenv_version_order := ["3.9.0"; "3.7.4"; "3.8.0"];
     parse_asdf_version_order := [];
     os_name := "posix";
     exists_dir := λ _, true;
     create_entry := λ bin n,
       {| entry := {| path := bin; entry_name := n; is_python := false;
                      as_python := None |};
          found :=
            if bool_decide (n = "3.8.0") then [python380]
            else if bool_decide (n = "3.9.0") then [python390]
            else if bool_decide (n = "3.9.0.post1") then [python390post]
            else if bool_decide (n = "system") then [python391]
            else [] |} |}.

(** [PythonFinder.create(root="/opt/pyenv", ...)] *)
Definition finder (tolerant : bool) : PythonFinder :=
  let self :=
    {| root := ["opt"; "pyenv"]; ignore_unsupported := tolerant;
       version_glob_path := "versions/*"; paths := [];
       _versions := ∅; is_dir := true |} in
  {| root := root self; ignore_unsupported := tolerant;
     version_glob_path := version_glob_path self;
     paths := get_paths host self; _versions := ∅; is_dir := true |}.


Definition python39 : query :=
  {| q_major := Some 3; q_minor := Some 9; q_patch := None; q_pre := None;
     q_dev := None; q_arch := None; q_name := None |}.

(** [matches] called with the empty string for [arch] *)
Definition empty_arch : predicate :=
  {| p_major := None; p_minor := None; p_patch := None; p_pre := Some false;
     p_dev := Some false; p_arch := Some EmptyString; p_debug := Some false;
     p_python_name := None |}.

(** An instance whose [minor] is unset and whose executable does not run. *)
Definition broken : PythonVersion :=
  {| major := 3; minor := None; patch := None;
     is_prerelease := false; is_postrelease := false;
     is_devrelease := false; is_debug := false;
     version := None; architecture := None; comes_from := None;
     executable := Some "/opt/broken/bin/python"; company := None;
     name := None |}.

(** [PythonVersion(major=3)]: no [minor], no executable. *)
Definition python3 : PythonVersion :=
  {| major := 3; minor := None; patch := None;
     is_prerelease := false; is_postrelease := false;
     is_devrelease := false; is_debug := false;
     version := None; architecture := None; comes_from := None;
     executable := None; company := None; name := None |}.

Definition entry_of (p : Path) (v : PythonVersion) : PathEntry :=
  {| path := p; entry_name := "python"; is_python := true; as_python := Some v |}.

End Sample.

(** ** The rest of the module *)

(** [PythonVersion.create]: an [architecture] keyword made of digits gets
    the suffix [bit]; a value without [isdigit] (anything but a [str]) is
    an [AttributeError]. *)
Definition PythonVersion_create (kwargs : dict) : result PythonVersion :=
  match kwargs !! "architecture" with
  | None => of_dict kwargs
  | Some (VStr a) =>
      of_dict (if isdigit a then <["architecture" := VStr (a ++ "bit")]> kwargs
               else kwargs)
  | Some _ => Raise AttributeError
  end.

(** The attribute a key names, when it is one that is read lazily. *)
Definition lazy_of (key : string) : option lazy_field :=
  if bool_decide (key = "minor") then Some Minor
  else if bool_decide (key = "patch") then Some Patch
  else None.

(** The properties and the methods written in the class.  [getattr] finds
    them on every instance; none of them can be set on one. *)
Definition property_names : list string := ["version_sort"; "version_tuple"].

Definition method_names : list string :=
  ["__getattribute__"; "matches"; "as_major"; "as_minor"; "as_dict";
   "update_metadata"; "parse"; "get_architecture"; "from_path";
   "parse_executable"; "from_windows_launcher"; "create"].

(** The entry with its version object in the state [v]. *)
Definition with_version (v : PythonVersion) (p : PathEntry) : PathEntry :=
  {| path := path p; entry_name := entry_name p; is_python := is_python p;
     as_python := Some v |}.


Section more_of_the_version.
Context (env : Env).

(** The reads of [self.minor] and then [self.patch] that both properties
    make: the instance as the reads leave it, and the exception that ended
    them if one did. *)
Definition read_numbers (self : PythonVersion)
    : World → World * (PythonVersion * option exn) :=
  λ w,
    match __getattribute__ env Minor self w with
    | (w1, Raise e) => (w1, (self, Some e))
    | (w1, Ok (_, self1)) =>
        match __getattribute__ env Patch self1 w1 with
        | (w2, Raise e) => (w2, (self1, Some e))
        | (w2, Ok (_, self2)) => (w2, (self2, None))
        end
    end.

(** [PythonVersion.version_tuple] as the property runs on an instance:
    [major] is read first, [minor] and [patch] go through
    [__getattribute__], and the three flags are read after that. *)
Definition version_tuple_property (self : PythonVersion)
    : M (dedup_key * PythonVersion) :=
  λ w,
    let major' := major self in
    match __getattribute__ env Minor self w with
    | (w1, Raise e) => (w1, Raise e)
    | (w1, Ok (m, self1)) =>
        match __getattribute__ env Patch self1 w1 with
        | (w2, Raise e) => (w2, Raise e)
        | (w2, Ok (p, self2)) =>
            (w2, Ok ((major', m, p, is_prerelease self2, is_devrelease self2,
                      is_debug self2), self2))
        end
    end.

(** [PythonVersion.as_dict] as the method runs on an instance: the values
    are read in the order of the keys, [minor] and [patch] through
    [__getattribute__]; the result holds [major] as it was before these
    reads, [minor] and [patch] as they returned them, and the other values
    of the instance as they left it. *)
Definition as_dict_call (self : PythonVersion) : M (dict * PythonVersion) :=
  λ w,
    let major' := major self in
    match __getattribute__ env Minor self w with
    | (w1, Raise e) => (w1, Raise e)
    | (w1, Ok (m, self1)) =>
        match __getattribute__ env Patch self1 w1 with
        | (w2, Raise e) => (w2, Raise e)
        | (w2, Ok (p, self2)) =>
            (w2, Ok (<["major" := VInt major']>
                     (<["minor" := of_int m]>
                     (<["patch" := of_int p]> (as_dict self2))),
                     self2))
        end
    end.

(** A clause [wanted is None or self.key == wanted] of [matches] for
    [minor] or [patch]: the attribute is read only when something is
    asked of it. *)
Definition asks_read (key : lazy_field) (wanted : option Z) (self : PythonVersion)
    : M (bool * PythonVersion) :=
  λ w,
    match wanted with
    | None => (w, Ok (true, self))
    | Some _ =>
        match __getattribute__ env key self w with
        | (w1, Raise e) => (w1, Raise e)
        | (w1, Ok (value, self1)) => (w1, Ok (bool_decide (value = wanted), self1))
        end
    end.

(** [PythonVersion.matches] as the method runs on an instance: the answer
    and the instance after the call.  [get_architecture] stores the
    architecture it finds; the clauses are evaluated left to right up to
    the first false one; a read of [minor] or [patch] may probe the
    executable, which sets the flags anew before the clauses after it
    read them. *)
Definition matches_call (self : PythonVersion) (p : predicate)
    : M (bool * PythonVersion) :=
  λ w,
    let '(own_arch, arch, self) :=
      if truthy_str (p_arch p)
      then (Some (get_architecture env self).1,
            (λ a, if isdigit a then a ++ "bit" else a) <$> p_arch p,
            (get_architecture env self).2)
      else (None, p_arch p, self) in
    if bool_decide (p_major p = None) || bool_decide (Some (major self) = p_major p)
    then
      match asks_read Minor (p_minor p) self w with
      | (w1, Raise e) => (w1, Raise e)
      | (w1, Ok (false, self1)) => (w1, Ok (false, self1))
      | (w1, Ok (true, self1)) =>
          match asks_read Patch (p_patch p) self1 w1 with
          | (w2, Raise e) => (w2, Raise e)
          | (w2, Ok (false, self2)) => (w2, Ok (false, self2))
          | (w2, Ok (true, self2)) =>
              if (bool_decide (p_pre p = None)
                  || bool_decide (Some (is_prerelease self2) = p_pre p))
                 && (bool_decide (p_dev p = None)
                     || bool_decide (Some (is_devrelease self2) = p_dev p))
              then
                match
                  match arch with
                  | None => Ok true
                  | Some a =>
                      match own_arch with
                      | None => Raise UnboundLocalError
                      | Some o => Ok (bool_decide (o = a))
                      end
                  end
                with
                | Raise e => (w2, Raise e)
                | Ok arch_clause =>
                    (w2, Ok (arch_clause
                             && (bool_decide (p_debug p = None)
                                 || bool_decide (Some (is_debug self2) = p_debug p))
                             && match p_python_name p with
                                | None => true
                                | Some python_name =>
                                    truthy_str (Some python_name)
                                    && truthy_str (name self2)
                                    && (bool_decide (name self2 = Some python_name)
                                        || startswith (default EmptyString (name self2))
                                             python_name)
                                end,
                             self2))
                end
              else (w2, Ok (false, self2))
          end
      end
    else (w, Ok (false, self)).

(** [PythonVersion.update_metadata], on the items of [metadata] in the
    order of the dictionary.  [getattr(self, key)] reads a field (through
    [__getattribute__] for [minor] and [patch]), runs a property, finds a
    method or another attribute of the class, or raises [AttributeError]
    for a name that is none of these, in which case the key is passed
    over.  Any other exception of the read leaves the method.  [setattr]
    then stores the value of a field, and raises for every other name,
    out of the [else] clause. *)
Fixpoint update_metadata (metadata : list (string * pyval)) (self : PythonVersion)
    : M PythonVersion :=
  λ w,
    match metadata with
    | [] => (w, Ok self)
    | (key, value) :: rest =>
        if bool_decide (key ∈ attribute_names) then
          match lazy_of key with
          | Some field =>
              match __getattribute__ env field self w with
              | (w1, Raise e) =>
                  if bool_decide (e = AttributeError)
                  then update_metadata rest self w1
                  else (w1, Raise e)
              | (w1, Ok (_, self1)) =>
                  update_metadata rest (setattrs {[key := value]} self1) w1
              end
          | None => update_metadata rest (setattrs {[key := value]} self) w
          end
        else if bool_decide (key ∈ property_names) then
          match read_numbers self w with
          | (w1, (self1, Some e)) =>
              if bool_decide (e = AttributeError)
              then update_metadata rest self1 w1
              else (w1, Raise e)
          | (w1, (self1, None)) => (w1, Raise AttributeError)
          end
        else if bool_decide (key ∈ method_names) then (w, Raise AttributeError)
        else
          match other_attribute env key with
          | Some e => (w, Raise e)
          | None => update_metadata rest self w
          end
    end.

(** The key function [operator.attrgetter("as_python.version_sort")] on
    an entry: the key, and the entry with its version as the property
    left it.  An entry without a version has no [version_sort]. *)
Definition version_sort_getter (p : PathEntry) : M (sort_key * PathEntry) :=
  λ w,
    match as_python p with
    | None => (w, Raise AttributeError)
    | Some v =>
        match version_sort_property env v w with
        | (w1, Raise e) => (w1, Raise e)
        | (w1, Ok (k, v1)) => (w1, Ok (k, with_version v1 p))
        end
    end.

(** The keys [sorted] computes: one call of the key function for each
    element, in the order of the list, before any two are compared.  The
    entries of the list are distinct objects, each with a version object
    of its own. *)
Fixpoint keys_of (l : list PathEntry) : M (list (sort_key * PathEntry)) :=
  λ w,
    match l with
    | [] => (w, Ok [])
    | p :: l' =>
        match version_sort_getter p w with
        | (w1, Raise e) => (w1, Raise e)
        | (w1, Ok kp) =>
            match keys_of l' w1 with
            | (w2, Raise e) => (w2, Raise e)
            | (w2, Ok rest) => (w2, Ok (kp :: rest))
            end
        end
    end.

(** [sorted(pythons, key=version_sort, reverse=True)] as the call runs:
    the keys are read, then compared. *)
Definition sorted_reverse (pythons : list PathEntry) : M (list PathEntry) :=
  λ w,
    match keys_of pythons w with
    | (w1, Raise e) => (w1, Raise e)
    | (w1, Ok keyed) => (w1, let! s := sorted_desc keyed in Ok (s.*2))
    end.

End more_of_the_version.

(** *** The two searches of the finder *)

Section search.
Context (env : Env) (host : Host).

(** [PathEntry.find_all_python_versions(major, ..., name)] and
    [PathEntry.find_python_version(major, ..., name)] are code of
    [mixins.py], which is not among the sources.  They are taken as they
    come: what a call with the arguments of the query on a path entry
    returns, and what it does to the state. *)
Context (find_all_in : query → RootEntry → M (list PathEntry))
        (find_in : query → RootEntry → M (option PathEntry)).




(** [[sub_finder(self.roots[path]) for path in self.roots]] *)
Fixpoint sub_find_first (q : query) (roots : list (Path * RootEntry))
    : M (list (option PathEntry)) :=
  λ w,
    match roots with
    | [] => (w, Ok [])
    | root :: roots' =>
        match find_in q root.2 w with
        | (w1, Raise e) => (w1, Raise e)
        | (w1, Ok p) =>
            match sub_find_first q roots' w1 with
            | (w2, Raise e) => (w2, Raise e)
            | (w2, Ok rest) => (w2, Ok (p :: rest))
            end
        end
    end.

(** The filter [p is not None and p.is_python and p.as_python is not None]. *)
Definition python_hits (unnested : list (option PathEntry)) : list PathEntry :=
  omap (λ p, match p with
             | Some p' =>
                 if is_python p' && bool_decide (is_Some (as_python p'))
                 then Some p' else None
             | None => None
             end) unnested.

(** [PythonFinder.find_python_version], on the value [roots] of
    [self.roots] (its items in the order of the dictionary). *)
Definition find_python_version (roots : list (Path * RootEntry)) (q : query)
    : M (option PathEntry) :=
  λ w,
    match sub_find_first q roots w with
    | (w0, Raise e) => (w0, Raise e)
    | (w0, Ok unnested) =>
        match sorted_reverse env (python_hits unnested) w0 with
        | (w1, Raise e) => (w1, Raise e)
        | (w1, Ok paths) => (w1, Ok (head paths))
        end
    end.

End search.

(** [self.roots[p] = entry] on a dictionary kept as its items in order: a
    key already there keeps its place. *)
Fixpoint setitem (k : Path) (v : RootEntry) (d : list (Path * RootEntry))
    : list (Path * RootEntry) :=
  match d with
  | [] => [(k, v)]
  | (k', v') :: d' =>
      if decide (k = k') then (k, v) :: d' else (k', v') :: setitem k v d'
  end.

(** [self.roots] once [_iter_version_bases] has run to its end. *)
Definition roots_after (host : Host) (self : PythonFinder)
    (roots : list (Path * RootEntry)) : list (Path * RootEntry) :=
  foldl (λ d base, setitem base.1 base.2 d) roots (_iter_version_bases host self).

(** [PythonFinder.which]; [entry_which] is [PathEntry.which] of the path
    entries, which is not among the sources. *)
Definition which (entry_which : RootEntry → string → option PathEntry)
    (self : PythonFinder) (name : string) : option PathEntry :=
  head (omap (λ p, entry_which p name) (paths self)).

(** [PythonFinder.create], for a [root] that is a path already; [is_dir]
    is what the property of [BasePath] answers for the root. *)
Definition PythonFinder_create (host : Host) (root : Path)
    (version_glob_path : option string) (ignore_unsupported : bool)
    (is_dir : bool) : PythonFinder :=
  let version_glob_path :=
    if truthy_str version_glob_path then default "versions/*" version_glob_path
    else "versions/*" in
  let self :=
    {| root := root; ignore_unsupported := ignore_unsupported;
       version_glob_path := version_glob_path; paths := [];
       _versions := ∅; is_dir := is_dir |} in
  {| root := root; ignore_unsupported := ignore_unsupported;
     version_glob_path := version_glob_path; paths := get_paths host self;
     _versions := ∅; is_dir := is_dir |}.

(** The same finder with another [ignore_unsupported]. *)
Definition with_ignore_unsupported (b : bool) (self : PythonFinder) : PythonFinder :=
  {| root := root self; ignore_unsupported := b;
     version_glob_path := version_glob_path self; paths := paths self;
     _versions := _versions self; is_dir := is_dir self |}.

(** ** More notions the statements use *)

(** [p'] asks no more than [p]: each of its fields is unset or the one
    of [p]. *)
Definition relaxes (p' p : predicate) : Prop :=
  (p_major p' = None ∨ p_major p' = p_major p)
  ∧ (p_minor p' = None ∨ p_minor p' = p_minor p)
  ∧ (p_patch p' = None ∨ p_patch p' = p_patch p)
  ∧ (p_pre p' = None ∨ p_pre p' = p_pre p)
  ∧ (p_dev p' = None ∨ p_dev p' = p_dev p)
  ∧ (p_arch p' = None ∨ p_arch p' = p_arch p)
  ∧ (p_debug p' = None ∨ p_debug p' = p_debug p)
  ∧ (p_python_name p' = None ∨ p_python_name p' = p_python_name p).

(** The predicate that asks for exactly the version tuple of [self]. *)
Definition own_tuple (self : PythonVersion) : predicate :=
  {| p_major := Some (major self); p_minor := minor self; p_patch := patch self;
     p_pre := Some (is_prerelease self); p_dev := Some (is_devrelease self);
     p_arch := None; p_debug := Some (is_debug self); p_python_name := None |}.

(** A cache table in good order: no key twice, no more entries than
    [maxsize], every reference a dictionary of the heap. *)
Definition cache_ok (h : list dict) (c : list (string * nat)) : Prop :=
  NoDup c.*1 ∧ (length c ≤ maxsize)%nat ∧ Forall (λ kv, (kv.2 < length h)%nat) c.

Definition caches_ok (w : World) : Prop :=
  cache_ok (heap w) (parse_cache w) ∧ cache_ok (heap w) (exe_cache w).

(** What a call may do to the world: the dictionaries made so far stay,
    and caches in good order stay so. *)
Definition keeps (w w1 : World) : Prop :=
  (length (heap w) ≤ length (heap w1))%nat ∧ (caches_ok w → caches_ok w1).

(** The six values [_iter_versions] reads off a dictionary. *)
Definition key_of_dict (version : dict) : version_key :=
  (dict_get version "major", dict_get version "minor", dict_get version "patch",
   dict_get version "is_prerelease", dict_get version "is_devrelease",
   dict_get version "is_debug").

(** A [version_tuple] written with the values of a dictionary. *)
Definition key_of_tuple (t : dedup_key) : version_key :=
  let '(M, m, p, pre, dev, dbg) := t in
  (VInt M, of_int m, of_int p, VBool pre, VBool dev, VBool dbg).

(** What a predicate asks of the version numbers and the pre-release and
    development flags, of the debug flag, of the name, and of the
    architecture of an instance. *)
Definition asks_numbers (self : PythonVersion) (p : predicate) : bool :=
  (bool_decide (p_major p = None) || bool_decide (Some (major self) = p_major p))
  && (bool_decide (p_minor p = None) || bool_decide (minor self = p_minor p))
  && (bool_decide (p_patch p = None) || bool_decide (patch self = p_patch p))
  && (bool_decide (p_pre p = None) || bool_decide (Some (is_prerelease self) = p_pre p))
  && (bool_decide (p_dev p = None) || bool_decide (Some (is_devrelease self) = p_dev p)).

Definition asks_debug (self : PythonVersion) (p : predicate) : bool :=
  bool_decide (p_debug p = None) || bool_decide (Some (is_debug self) = p_debug p).

Definition asks_name (self : PythonVersion) (p : predicate) : bool :=
  match p_python_name p with
  | None => true
  | Some python_name =>
      truthy_str (Some python_name) && truthy_str (name self)
      && (bool_decide (name self = Some python_name)
          || startswith (default EmptyString (name self)) python_name)
  end.

Definition asks_arch (env : Env) (self : PythonVersion) (p : predicate) : Prop :=
  match p_arch p with
  | None => True
  | Some a =>
      a ≠ EmptyString
      ∧ (get_architecture env self).1 = (if isdigit a then a ++ "bit" else a)
  end.

(** The predicate [p] with another [arch]. *)
Definition set_arch (a : option string) (p : predicate) : predicate :=
  {| p_major := p_major p; p_minor := p_minor p; p_patch := p_patch p;
     p_pre := p_pre p; p_dev := p_dev p; p_arch := a;
     p_debug := p_debug p; p_python_name := p_python_name p |}.

(** The instance a constructor call on [as_dict] gives: the attributes
    [as_dict] leaves out are at their defaults. *)
Definition without_origin (self : PythonVersion) : PythonVersion :=
  {| major := major self; minor := minor self; patch := patch self;
     is_prerelease := is_prerelease self; is_postrelease := is_postrelease self;
     is_devrelease := is_devrelease self; is_debug := is_debug self;
     version := version self; architecture := None; comes_from := None;
     executable := None; company := company self; name := None |}.

(** ** More sample data *)

Module Cases.

(** An instance that knows its executable but not its [minor]. *)
Definition unresolved : PythonVersion :=
  {| major := 3; minor := None; patch := None;
     is_prerelease := false; is_postrelease := true;
     is_devrelease := false; is_debug := false;
     version := None; architecture := None; comes_from := None;
     executable := Some "/opt/pyenv/versions/system/bin/python";
     company := None; name := None |}.

Definition core39 : PythonVersion :=
  {| major := 3; minor := Some 9; patch := Some 0;
     is_prerelease := false; is_postrelease := false;
     is_devrelease := true; is_debug := false;
     version := Some "3.9.0.dev1"; architecture := Some "64bit"; comes_from := None;
     executable := None; company := Some "PythonCore"; name := Some "python3.9" |}.

Definition conda311 : PythonVersion :=
  {| major := 3; minor := Some 11; patch := Some 4;
     is_prerelease := false; is_postrelease := false;
     is_devrelease := false; is_debug := false;
     version := Some "3.11.4"; architecture := None; comes_from := None;
     executable := None; company := Some "ContinuumAnalytics";
     name := Some "anaconda3-2023.07" |}.

(** 3.9 with no [patch]. *)
Definition no_patch : PythonVersion :=
  {| major := 3; minor := Some 9; patch := None;
     is_prerelease := false; is_postrelease := false;
     is_devrelease := false; is_debug := false;
     version := Some "3.9"; architecture := None; comes_from := None;
     executable := None; company := None; name := Some "python3.9" |}.

Definition by_name : predicate :=
  {| p_major := Some 3; p_minor := Some 11; p_patch := None; p_pre := Some false;
     p_dev := Some false; p_arch := None; p_debug := Some false;
     p_python_name := Some "anaconda3" |}.

Definition any_name : predicate :=
  {| p_major := Some 3; p_minor := None; p_patch := None; p_pre := None;
     p_dev := Some false; p_arch := None; p_debug := None;
     p_python_name := None |}.

Definition with_arch (a : string) : predicate :=
  {| p_major := Some 3; p_minor := None; p_patch := None; p_pre := None;
     p_dev := None; p_arch := Some a; p_debug := None; p_python_name := None |}.

Definition keywords : dict :=
  list_to_map [("major", VInt 3); ("minor", VInt 9); ("architecture", VStr "64")].

Definition metadata : list (string * pyval) :=
  [("major", VInt 3); ("minor", VInt 10); ("is_debug", VBool true);
   ("build", VStr "gcc")].

Definition map390 : VersionMap :=
  {| default_factory := None;
     versions := {[ (3, Some 9, Some 0, false, false, false) := [Sample.python390] ]} |}.

Definition map390post : VersionMap :=
  {| default_factory := None;
     versions := {[ (3, Some 9, Some 0, false, false, false)
                    := [Sample.python390; Sample.python390post] ]} |}.

(** [PathEntry.which] of the sample: every root holds [python], the one
    of [system] also [pip]. *)
Definition entry_which (e : RootEntry) (n : string) : option PathEntry :=
  if bool_decide (n = "python") then head (found e)
  else if bool_decide (n = "pip") && bool_decide (entry_name (entry e) = "system")
  then Some {| path := (path (entry e) ++ ["pip"])%list; entry_name := "pip";
               is_python := false; as_python := None |}
  else None.

Definition created (tolerant : bool) : PythonFinder :=
  PythonFinder_create Sample.host ["opt"; "pyenv"] None tolerant true.

(** An instance marked as a pre-release that knows its executable, which
    reports the release 3.9.1, but not its [minor]. *)
Definition stale_pre : PythonVersion :=
  {| major := 3; minor := None; patch := None;
     is_prerelease := true; is_postrelease := false;
     is_devrelease := false; is_debug := false;
     version := None; architecture := None; comes_from := None;
     executable := Some "/opt/pyenv/versions/system/bin/python";
     company := None; name := None |}.

Definition minor9_final : predicate :=
  {| p_major := None; p_minor := Some 9; p_patch := None; p_pre := Some false;
     p_dev := None; p_arch := None; p_debug := None; p_python_name := None |}.

Definition final : predicate :=
  {| p_major := None; p_minor := None; p_patch := None; p_pre := Some false;
     p_dev := None; p_arch := None; p_debug := None; p_python_name := None |}.

(** The installation of the sample with the executable of [system] not
    yet resolved: its entry holds [unresolved]. *)
Definition python_unresolved : PathEntry :=
  Sample.entry_of (Sample.versions_dir ++ ["system"; "bin"; "python"])%list unresolved.

Definition lazy_host : Host :=
  {| glob := glob Sample.host;
     is_in_path := is_in_path Sample.host;
     PYENV_ROOT := PYENV_ROOT Sample.host;
     ASDF_DATA_DIR := ASDF_DATA_DIR Sample.host;
     parse_pyenv_version_order := parse_pyenv_version_order Sample.host;
     parse_asdf_version_order := parse_asdf_version_order Sample.host;
     os_name := os_name Sample.host;
     exists_dir := exists_dir Sample.host;
     create_entry := λ bin n,
       if bool_decide (n = "system")
       then {| entry := entry (create_entry Sample.host bin n);
               found := [python_unresolved] |}
       else create_entry Sample.host bin n |}.

Definition lazy_finder : PythonFinder :=
  PythonFinder_create lazy_host ["opt"; "pyenv"] None true true.

(** Sample finders of the path entries: they keep the locations the entry
    enumerates whose version, as stored, matches the query, and read
    nothing else. *)
Fixpoint matching (p : predicate) (l : list PathEntry) : result (list PathEntry) :=
  match l with
  | [] => Ok []
  | x :: l' =>
      match as_python x with
      | None => matching p l'
      | Some v =>
          let! b := matches Sample.env v p in
          let! rest := matching p l' in
          Ok (if b : bool then x :: rest else rest)
      end
  end.


Definition find_in (q : query) (e : RootEntry) : M (option PathEntry) :=
  λ w, (w, let! all := matching (to_predicate q) (found e) in Ok (head all)).

End Cases.

(** ** Theorems *)


(** *** Lists *)

Lemma filter_ext_elem {A} (P Q : A → Prop)
    `{!∀ x, Decision (P x), !∀ x, Decision (Q x)} (l : list A) :
  (∀ x, x ∈ l → P x ↔ Q x) → filter P l = filter Q l.
Proof.
  induction l as [|a l IH]; intros Hiff; [done|].
  rewrite !filter_cons, IH by (intros; apply Hiff; by right).
  destruct (decide (P a)) as [HP|HP], (decide (Q a)) as [HQ|HQ]; try done;
    exfalso; apply (Hiff a) in HP || apply HP, (Hiff a), HQ; try done; by left.
Qed.

Lemma filter_none {A} (P : A → Prop) `{!∀ x, Decision (P x)} (l : list A) :
  (∀ x, x ∈ l → ¬ P x) → filter P l = [].
Proof.
  induction l as [|a l IH]; intros Hn; [done|].
  rewrite filter_cons_False by (apply Hn; by left).
  apply IH. intros; apply Hn; by right.
Qed.

(** *** VersionMap *)

Lemma filter_new_entries (current entries : list PathEntry) :
  filter (λ e, path e ∈ (list_to_set (path <$> entries) ∖ list_to_set (path <$> current) : gset Path)) entries
  = filter (λ e, path e ∉ path <$> current) entries.
Proof.
  apply filter_ext_elem. intros e He.
  rewrite elem_of_difference, !elem_of_list_to_set.
  split; [tauto|]. intros Hn. split; [|done].
  apply list_elem_of_fmap. eauto.
Qed.

Lemma merge_step_lookup (version : dedup_key) (entries : list PathEntry)
    (self : gmap dedup_key (list PathEntry)) (k : dedup_key) :
  merge_step version entries self !! k
  = if decide (version = k) then merged (self !! k) (Some entries) else self !! k.
Proof.
  unfold merge_step. destruct (decide (version = k)) as [->|Hne].
  - destruct (self !! k) as [current|] eqn:Hk; simpl.
    + by rewrite lookup_insert_eq, filter_new_entries.
    + by rewrite lookup_insert_eq.
  - destruct (self !! version); by rewrite lookup_insert_ne.
Qed.

Lemma merge_lookup (self target : VersionMap) (k : dedup_key) :
  versions (merge self target) !! k
  = merged (versions self !! k) (versions target !! k).
Proof.
  unfold merge; simpl. revert k.
  apply (map_fold_weak_ind
    (λ r (m : gmap dedup_key (list PathEntry)),
       ∀ k, r !! k = merged (versions self !! k) (m !! k))).
  - intros k. rewrite lookup_empty. by destruct (versions self !! k).
  - intros i x m r Hi IH k. rewrite merge_step_lookup, IH.
    destruct (decide (i = k)) as [->|Hne].
    + rewrite Hi, lookup_insert_eq. by destruct (versions self !! k).
    + by rewrite lookup_insert_ne.
Qed.

Lemma merged_idempotent mine theirs :
  merged (merged mine theirs) theirs = merged mine theirs.
Proof.
  destruct mine as [mine|], theirs as [theirs|]; simpl; try done.
  - rewrite (filter_none (λ e, path e ∉ path <$> (mine ++ _)%list)).
    { by rewrite app_nil_r. }
    intros e He Hn. apply Hn. rewrite fmap_app, elem_of_app.
    destruct (decide (path e ∈ path <$> mine)) as [?|Hnew]; [by left|right].
    apply list_elem_of_fmap. exists e. split; [done|].
    by apply list_elem_of_filter.
  - rewrite (filter_none (λ e, path e ∉ path <$> theirs)).
    { by rewrite app_nil_r. }
    intros e He Hn. apply Hn, list_elem_of_fmap. eauto.
Qed.

(** C4: [merge] is order-stable and idempotent.  Under every key the
    entries held locally stay where they are, the entries of the other map
    whose path is not among them follow in the other map's order, a key
    held only by the other map takes its list, and merging the same map a
    second time changes nothing. *)
Theorem merge_order_stable_idempotent (self target : VersionMap) :
  (∀ k, versions (merge self target) !! k =
        match versions self !! k, versions target !! k with
        | Some mine, Some theirs =>
            Some (mine ++ filter (λ e, path e ∉ path <$> mine) theirs)%list
        | Some mine, None => Some mine
        | None, theirs => theirs
        end)
  ∧ merge (merge self target) target = merge self target.
Proof.
  split.
  - intros k. apply merge_lookup.
  - assert (Hv : versions (merge (merge self target) target)
                 = versions (merge self target)).
    { apply map_eq. intros k. rewrite !merge_lookup. apply merged_idempotent. }
    unfold merge, set_versions in *. simpl in *. by rewrite Hv.
Qed.

(** With no factory, a key that is not in the map is a [KeyError]. *)
Lemma add_entry_missing_key (self : VersionMap) (e : PathEntry) (v : PythonVersion) :
  as_python e = Some v →
  default_factory self = None →
  versions self !! version_tuple v = None →
  add_entry self e = Raise KeyError.
Proof.
  intros Hv Hf Hk. unfold add_entry, getitem. by rewrite Hv, Hk, Hf.
Qed.

(** Under a key that is in the map, [add_entry] appends an entry whose
    path is new and leaves the map alone otherwise. *)
Lemma add_entry_present_key (self : VersionMap) (e : PathEntry) (v : PythonVersion)
    (l : list PathEntry) :
  as_python e = Some v →
  versions self !! version_tuple v = Some l →
  add_entry self e =
    Ok (if decide (path e ∈ path <$> l) then self
        else set_versions (<[version_tuple v := (l ++ [e])%list]> (versions self)) self).
Proof.
  intros Hv Hk. unfold add_entry, getitem. rewrite Hv, Hk. simpl. rewrite Hk. simpl.
  destruct (decide (path e ∈ path <$> l)) as [Hin|Hin].
  - rewrite bool_decide_eq_false_2; [done|].
    intros Hn. apply Hn. by apply elem_of_list_to_set.
  - rewrite bool_decide_eq_true_2; [done|].
    by rewrite elem_of_list_to_set.
Qed.

(** An entry without a version changes nothing, and whenever [add_entry]
    returns, no list holds a path twice if none did before (for a map
    whose factory, if any, makes empty lists). *)
Lemma add_entry_distinct_paths (self self' : VersionMap) (e : PathEntry) :
  (∀ f, default_factory self = Some f → f () = []) →
  distinct_paths self →
  add_entry self e = Ok self' →
  distinct_paths self' ∧ (as_python e = None → self' = self).
Proof.
  intros Hf Hd Hadd. unfold add_entry in Hadd.
  destruct (as_python e) as [v|] eqn:Hv; [|by simplify_eq].
  split; [|done].
  destruct (versions self !! version_tuple v) as [l|] eqn:Hk.
  - pose proof (add_entry_present_key self e v l Hv Hk) as Hp.
    unfold add_entry in Hp. rewrite Hv in Hp. rewrite Hp in Hadd.
    destruct (decide (path e ∈ path <$> l)) as [Hin|Hin]; simplify_eq; [done|].
    intros k l'. simpl. destruct (decide (version_tuple v = k)) as [<-|Hne].
    + rewrite lookup_insert_eq. intros [= <-].
      rewrite fmap_app. simpl. apply NoDup_app. split; [by eapply Hd|].
      split; [|apply NoDup_singleton].
      intros x Hx ->%list_elem_of_singleton. done.
    + rewrite lookup_insert_ne by done. apply Hd.
  - unfold getitem in Hadd. rewrite Hk in Hadd.
    destruct (default_factory self) as [f|] eqn:Hfac; [|done].
    simpl in Hadd. rewrite lookup_insert_eq in Hadd. simpl in Hadd.
    rewrite (Hf f eq_refl) in Hadd. simpl in Hadd.
    rewrite bool_decide_eq_true_2 in Hadd by set_solver.
    simpl in Hadd. rewrite ?lookup_insert_eq in Hadd. simpl in Hadd.
    simplify_eq. intros k l'. simpl.
    rewrite insert_insert_eq.
    destruct (decide (version_tuple v = k)) as [<-|Hne].
    + rewrite lookup_insert_eq. intros [= <-]. simpl. apply NoDup_singleton.
    + rewrite lookup_insert_ne by done. apply Hd.
Qed.

(** C5: on a map made by [VersionMap()], [add_entry] of an entry that has
    a version does not append it: the key is not in the map, the
    [defaultdict] has no factory, and the lookup raises [KeyError]. *)
Theorem add_entry_fresh_map_raises :
  as_python Sample.python390 = Some (Sample.release 3 9 0 false "3.9.0"
                                        "/opt/pyenv/versions/3.9.0/bin/python")
  ∧ add_entry VersionMap_new Sample.python390 = Raise KeyError
  ∧ (let! m := add_entry VersionMap_of_lists Sample.python390 in Ok (versions m))
    = Ok {[ (3, Some 9, Some 0, false, false, false) := [Sample.python390] ]}.
Proof.
  split; [reflexivity|]. split.
  - by eapply add_entry_missing_key.
  - vm_compute. reflexivity.
Qed.

(** *** The finder *)

Section finder_facts.
Context (env : Env) (host : Host).

(** A dictionary filled from a list holds, under each key, the last
    element of the list with that key. *)
Lemma foldl_insert_name (vp : list Path) (m0 : gmap string Path) (n : string) :
  foldl (λ m v, <[path_name v := v]> m) m0 vp !! n
  = match last (filter (λ p, path_name p = n) vp) with
    | Some p => Some p
    | None => m0 !! n
    end.
Proof.
  revert m0. induction vp as [|v vp IH]; intros m0; [done|].
  simpl. rewrite IH, filter_cons.
  destruct (decide (path_name v = n)) as [Hn|Hn].
  - rewrite last_cons. destruct (last (filter _ vp)); [done|].
    by rewrite Hn, lookup_insert_eq.
  - destruct (last (filter _ vp)); [done|]. by rewrite lookup_insert_ne.
Qed.




(** A mapping filled from the yielded items holds, under each key, the
    entry of the last item with that key. *)
Lemma foldl_insert_items (items : list (Path * RootEntry * version_key))
    (m0 : gmap version_key RootEntry) (k : version_key) :
  foldl (λ m '(_, entry', version_tuple'), <[version_tuple' := entry']> m) m0 items !! k
  = match last (filter (λ it, it.2 = k) items) with
    | Some it => Some it.1.2
    | None => m0 !! k
    end.
Proof.
  revert m0. induction items as [|[[bp e] vt] items IH]; intros m0; [done|].
  simpl. rewrite IH, filter_cons. simpl.
  destruct (decide (vt = k)) as [Hn|Hn].
  - rewrite last_cons. destruct (last (filter _ items)); [done|].
    by rewrite Hn, lookup_insert_eq.
  - destruct (last (filter _ items)); [done|]. by rewrite lookup_insert_ne.
Qed.

(** C10: when the cache is empty, [versions] fills it from the candidates
    [_iter_versions] yields, in order; the cache then holds under each
    version tuple exactly one entry, that of the last candidate yielded
    with this tuple, and this mapping is what the property returns when the
    enumeration ends without an exception. *)
Theorem versions_keeps_last_candidate (self : PythonFinder) (w : World) :
  let items := (_iter_versions env host self w).2.1 in
  let out := (versions_property env host self w).2 in
  _versions self = ∅ →
  (∀ k, _versions out.2 !! k
        = (λ it, it.1.2) <$> last (filter (λ it, it.2 = k) items))
  ∧ ((_iter_versions env host self w).2.2 = None → out.1 = Ok (_versions out.2)).
Proof.
  intros items out Hempty. unfold out, items, versions_property.
  rewrite bool_decide_eq_true_2 by done.
  destruct (_iter_versions env host self w) as [w' [its e]]. simpl. split.
  - intros k. rewrite foldl_insert_items, Hempty, lookup_empty.
    by destruct (last _).
  - by intros ->.
Qed.

(** Whatever exception [parse] raises on the name of a candidate, the
    round ends without a look at what the candidate's directory holds:
    the candidate is passed over when [ignore_unsupported] is set and the
    exception leaves the generator when it is not. *)
Lemma iter_versions_round_parse_error (self : PythonFinder) (base_path : Path)
    (candidate : RootEntry) (w w' : World) (e : exn) :
  parse env (entry_name (entry candidate)) w = (w', Raise e) →
  _iter_versions_round env self (base_path, candidate) w
  = (w', if ignore_unsupported self then Skipped else Raised e).
Proof.
  intros Hp. unfold _iter_versions_round. rewrite Hp.
  destruct (is_value_or_invalid e), (ignore_unsupported self); done.
Qed.

End finder_facts.

(** C2: a candidate whose name does not parse and whose directory holds a
    runnable executable with a resolved version.  The round of
    [_iter_versions] does not yield the version of that executable: it
    passes the candidate over in tolerant mode and raises in strict mode. *)
Theorem iter_versions_ignores_the_fallback :
  let base_path := (Sample.versions_dir ++ ["system"])%list in
  let candidate := create_entry Sample.host (base_path ++ ["bin"])%list "system" in
  parse_python_version Sample.env "system" = Raise InvalidPythonVersion
  ∧ head (found candidate) = Some Sample.python391
  ∧ (as_python Sample.python391 ≫= minor) = Some 9
  ∧ _iter_versions_round Sample.env (Sample.finder true) (base_path, candidate) empty_world
    = (empty_world, Skipped)
  ∧ _iter_versions_round Sample.env (Sample.finder false) (base_path, candidate) empty_world
    = (empty_world, Raised InvalidPythonVersion)
  ∧ (_iter_versions Sample.env Sample.host (Sample.finder true) empty_world).2.1.*1.*1
    = (λ d, Sample.versions_dir ++ [d])%list <$> ["3.9.0"; "3.8.0"; "3.9.0.post1"].
Proof. repeat split; vm_compute; reflexivity. Qed.


Lemma versions_keeps_last_candidate_witness :
  _versions (versions_property Sample.env Sample.host (Sample.finder true) empty_world).2.2
    !! (VInt 3, VInt 9, VInt 0, VBool false, VBool false, VBool false)
  = Some (create_entry Sample.host (Sample.versions_dir ++ ["3.9.0.post1"; "bin"])%list
            "3.9.0.post1").
Proof.
  destruct (versions_keeps_last_candidate Sample.env Sample.host
              (Sample.finder true) empty_world) as [H _].
  - reflexivity.
  - rewrite H. vm_compute. reflexivity.
Defined.

(** *** Lazy attributes and the caches *)

Section version_facts.
Context (env : Env).

Lemma lru_cache_miss_raise sel upd f (k : string) (w w' : World) (e : exn) :
  lru_lookup k (sel w) = None →
  f k w = (w', Raise e) →
  lru_cache sel upd f k w = (w', Raise e).
Proof. intros Hl Hf. unfold lru_cache. by rewrite Hl, Hf. Qed.

(** A probe that fails is not remembered: the call logs the probe, raises
    [ValueError] and leaves both caches as they were. *)
Lemma parse_executable_probe_fails (exe : string) (w : World) :
  lru_lookup exe (exe_cache w) = None →
  (∀ s, get_python_version env exe ≠ Ok (Some s)) →
  parse_executable env exe w = (log_probe exe w, Raise ValueError).
Proof.
  intros Hl Hp. apply lru_cache_miss_raise; [done|].
  unfold parse_executable_uncached.
  destruct (get_python_version env exe) as [[s|]|e]; try done.
  by destruct (Hp s).
Qed.

Lemma getattribute_stored (key : lazy_field) (self : PythonVersion) (w : World) (z : Z) :
  stored key self = Some z →
  __getattribute__ env key self w = (w, Ok (Some z, self)).
Proof. intros Hs. unfold __getattribute__. by rewrite Hs. Qed.

Lemma stored_setattrs (key : lazy_field) (d : dict) (self : PythonVersion) (z : Z) :
  as_int (dict_get d (field_name key)) = Some z →
  stored key (setattrs d self) = Some z.
Proof.
  unfold dict_get. destruct key; simpl;
    (destruct (d !! _) as [v|]; simpl; [done|discriminate]).
Qed.

(** The property [version_sort] on an instance whose [minor] and [patch]
    are set returns the tuple of the attribute values and probes nothing. *)
Lemma version_sort_property_resolved (self : PythonVersion) (w : World) :
  is_Some (minor self) → is_Some (patch self) →
  version_sort_property env self w = (w, Ok (version_sort self, self)).
Proof.
  intros [m Hm] [p Hp]. unfold version_sort_property.
  rewrite (getattribute_stored Minor self w m Hm).
  rewrite (getattribute_stored Patch self w p Hp).
  unfold version_sort. by rewrite Hm, Hp.
Qed.

Lemma parse_probes (s : string) (w : World) :
  probes (parse env s w).1 = probes w.
Proof.
  unfold parse, lru_cache. destruct (lru_lookup s (parse_cache w)); [done|].
  unfold parse_uncached. destruct (parse_python_version env s); [|done].
  by case_bool_decide.
Qed.

(** A read of an unset field of an instance with a known executable runs
    the probe once if the path is not in the cache of [parse_executable],
    and not at all if it is. *)
Lemma getattribute_probes (key : lazy_field) (self : PythonVersion) (w : World)
    (exe : string) :
  stored key self = None →
  known_executable self = Some exe →
  probes (__getattribute__ env key self w).1
  = if lru_lookup exe (exe_cache w) is Some _ then probes w else (probes w ++ [exe])%list.
Proof.
  intros Hs Hexe. unfold __getattribute__. rewrite Hs, Hexe.
  unfold parse_executable, lru_cache.
  destruct (lru_lookup exe (exe_cache w)); [done|].
  unfold parse_executable_uncached.
  destruct (get_python_version env exe) as [[rv|]|]; try done.
  pose proof (parse_probes (strip rv) (log_probe exe w)) as Hp.
  by destruct (parse env (strip rv) (log_probe exe w)) as [w1 [r|e]].
Qed.

End version_facts.

(** C6, as stated, fails: the executable of this instance does not run;
    the first read of [minor] raises instead of returning the unset value,
    and the second read probes the executable a second time. *)
Lemma lazy_read_failed_probe_is_repeated :
  let exe := "/opt/broken/bin/python" in
  let first := __getattribute__ Sample.env Minor Sample.broken empty_world in
  let second := __getattribute__ Sample.env Minor Sample.broken first.1 in
  known_executable Sample.broken = Some exe
  ∧ first.2 = Raise ValueError
  ∧ probes first.1 = [exe]
  ∧ second.2 = Raise ValueError
  ∧ probes second.1 = [exe; exe].
Proof. repeat split; vm_compute; reflexivity. Qed.

(** C7: [matches] and the sort by [version_sort] raise.  [matches] with
    the empty string for [arch] reads [own_arch], which is bound only when [arch] is not empty; two
    versions that differ first in [minor], one of them without [minor],
    cannot be ordered; and a read of [minor] whose probe fails raises
    inside the property. *)
Theorem matches_and_version_sort_raise :
  matches Sample.env Sample.python3 Sample.empty_arch = Raise UnboundLocalError
  ∧ key_lt (version_sort Sample.python3)
           (version_sort (Sample.release 3 9 0 false "3.9.0" "/usr/bin/python3.9"))
    = Raise TypeError
  ∧ sorted_by_version
      [Sample.entry_of ["usr"; "bin"; "python3"] Sample.python3; Sample.python390]
    = Raise TypeError
  ∧ (version_sort_property Sample.env Sample.broken empty_world).2 = Raise ValueError.
Proof. repeat split; vm_compute; reflexivity. Qed.

(** C8: [parse("3.9.1")] before and after [from_path] on an executable
    that reports 3.9.1.  Both calls return the same cached dictionary
    object; [from_path] has written [comes_from], [name] and [executable]
    into it in between, so the dictionary the second call returns is not
    equal to the one the first call returned: it agrees with it on the
    parsed fields and carries the three keys of the other entry besides. *)
Theorem parse_result_changed_by_from_path :
  let first := parse Sample.env "3.9.1" empty_world in
  let made := from_path Sample.env Sample.python391 None true None first.1 in
  let second := parse Sample.env "3.9.1" made.1 in
  let exe := "/opt/pyenv/versions/system/bin/python" in
  first.2 = Ok 0%nat
  ∧ deref first.1 0 = Sample.fields 3 9 1 false "3.9.1"
  ∧ (let! v := made.2 in Ok (version_tuple v, executable v))
    = Ok ((3, Some 9, Some 1, false, false, false), Some exe)
  ∧ second.2 = Ok 0%nat
  ∧ deref second.1 0
    = <["comes_from" := VEntry exe]>
      (<["name" := VStr "python"]>
      (<["executable" := VStr exe]> (Sample.fields 3 9 1 false "3.9.1")))
  ∧ filter (λ kv, kv.1 ∈ dom (deref first.1 0)) (deref second.1 0) = deref first.1 0
  ∧ deref second.1 0 ≠ deref first.1 0.
Proof.
  repeat split; try (vm_compute; reflexivity).
  intros H. apply (f_equal (λ d : dict, d !! "name")) in H.
  vm_compute in H. discriminate.
Qed.

(** *** Sorting by [version_sort] *)

Ltac key_cases :=
  repeat match goal with
         | k : sort_key |- _ => destruct k as [[[[? ?] ?] ?] ?]
         end;
  unfold key_lt, lt_opt_int in *;
  repeat (first [ case_bool_decide
                | match goal with m : option Z |- _ => destruct m end ];
          simpl in *; simplify_eq; try done);
  repeat match goal with
         | H : Ok _ = Ok _ |- _ => injection H as H
         | H : Some _ ≠ Some _ |- _ =>
             let H' := fresh in assert (H' := λ e, H (f_equal Some e)); clear H
         end;
  try done; try (f_equal; lia); try lia.

Lemma key_lt_irrefl (k : sort_key) : key_lt k k = Ok false.
Proof. key_cases. Qed.

Lemma key_lt_asym (a b : sort_key) : key_lt a b = Ok true → key_lt b a = Ok false.
Proof. intros H. key_cases. Qed.

Lemma key_ge_trans (a b c : sort_key) :
  key_lt a b = Ok false → key_lt b c = Ok false → key_lt a c = Ok false.
Proof. intros H1 H2. key_cases. Qed.

(** Keys that both carry a [minor] can be compared. *)
Lemma key_lt_total (a b : sort_key) :
  is_Some a.1.1.2 → is_Some b.1.1.2 → ∃ r, key_lt a b = Ok r.
Proof.
  destruct a as [[[[? ?] ?] ?] ?], b as [[[[? ?] ?] ?] ?]; simpl.
  intros [x ->] [y ->]. unfold key_lt, lt_opt_int.
  repeat (case_bool_decide; simpl); eauto.
Qed.

Section sorting.
Context {A : Type}.
Implicit Types (x y : sort_key * A) (l : list (sort_key * A)).

Lemma insert_desc_perm x l l' : insert_desc x l = Ok l' → l' ≡ₚ x :: l.
Proof.
  revert l'. induction l as [|y l IH]; intros l' H; simpl in H.
  - by simplify_eq.
  - destruct (key_lt x.1 y.1) as [[]|]; simpl in H; [|by simplify_eq|done].
    destruct (insert_desc x l) as [rest|]; simpl in H; [|done].
    simplify_eq. rewrite (IH rest eq_refl). apply perm_swap.
Qed.

Lemma sorted_desc_perm l l' : sorted_desc l = Ok l' → l' ≡ₚ l.
Proof.
  revert l'. induction l as [|x l IH]; intros l' H; simpl in H.
  - by simplify_eq.
  - destruct (sorted_desc l) as [s|]; simpl in H; [|done].
    rewrite (insert_desc_perm _ _ _ H). by rewrite (IH s).
Qed.

Lemma insert_desc_sorted x l l' :
  StronglySorted key_ge l → insert_desc x l = Ok l' → StronglySorted key_ge l'.
Proof.
  revert l'. induction l as [|y l IH]; intros l' Hs H; simpl in H.
  - simplify_eq. repeat constructor.
  - apply StronglySorted_inv in Hs as [Hs Hy].
    destruct (key_lt x.1 y.1) as [[]|] eqn:Hxy; simpl in H; [| |done].
    + destruct (insert_desc x l) as [rest|] eqn:Hr; simpl in H; [|done].
      simplify_eq. constructor; [by apply IH|].
      rewrite (insert_desc_perm _ _ _ Hr). constructor; [|done].
      by apply key_lt_asym.
    + simplify_eq. constructor; [by constructor|].
      constructor; [done|].
      eapply Forall_impl; [exact Hy|]. intros z Hz.
      unfold key_ge in *. by eapply key_ge_trans.
Qed.

Lemma sorted_desc_sorted l l' : sorted_desc l = Ok l' → StronglySorted key_ge l'.
Proof.
  revert l'. induction l as [|x l IH]; intros l' H; simpl in H.
  - simplify_eq. constructor.
  - destruct (sorted_desc l) as [s|]; simpl in H; [|done].
    eapply insert_desc_sorted; [|done]. by apply IH.
Qed.

(** Elements with the same key keep their order. *)
Lemma insert_desc_stable x l l' (k : sort_key) :
  insert_desc x l = Ok l' →
  filter (λ a, a.1 = k) l' = filter (λ a, a.1 = k) (x :: l).
Proof.
  revert l'. induction l as [|y l IH]; intros l' H; simpl in H.
  - by simplify_eq.
  - destruct (key_lt x.1 y.1) as [[]|] eqn:Hxy; simpl in H; [|by simplify_eq|done].
    destruct (insert_desc x l) as [rest|] eqn:Hr; simpl in H; [|done].
    simplify_eq. rewrite (filter_cons _ y rest), (IH rest eq_refl).
    rewrite !filter_cons.
    destruct (decide (y.1 = k)) as [Hy|Hy], (decide (x.1 = k)) as [Hx|Hx]; try done.
    rewrite Hx, Hy, key_lt_irrefl in Hxy. done.
Qed.

Lemma sorted_desc_stable l l' (k : sort_key) :
  sorted_desc l = Ok l' →
  filter (λ a, a.1 = k) l' = filter (λ a, a.1 = k) l.
Proof.
  revert l'. induction l as [|x l IH]; intros l' H; simpl in H.
  - by simplify_eq.
  - destruct (sorted_desc l) as [s|]; simpl in H; [|done].
    rewrite (insert_desc_stable _ _ _ _ H), !filter_cons, (IH s eq_refl). done.
Qed.



End sorting.

(** ** Further properties of [matches], [get_architecture], [as_dict] and
    [create] *)

Section matching.
Context (env : Env).

(** X5: every instance matches the predicate made of its own version
    tuple, with no architecture and no name asked for. *)
Theorem matches_own_tuple (self : PythonVersion) :
  matches env self (own_tuple self) = Ok true.
Proof.
  unfold matches, own_tuple. simpl.
  destruct (minor self), (patch self); simpl;
    rewrite ?(bool_decide_eq_true_2 (_ = _)) by done; done.
Qed.

Lemma all_digits_app (a b : string) :
  all_digits (a ++ b) = all_digits a && all_digits b.
Proof.
  induction a as [|c a IH]; simpl; [done|]. by rewrite IH, andb_assoc.
Qed.

Lemma isdigit_bit (a : string) : isdigit (a ++ "bit") = false.
Proof.
  unfold isdigit. rewrite all_digits_app. simpl.
  by rewrite !andb_false_r.
Qed.

Lemma isdigit_truthy (a : string) : isdigit a = true → truthy_str (Some a) = true.
Proof. unfold isdigit. simpl. by intros [? _]%andb_prop. Qed.

Lemma truthy_bit (a : string) : truthy_str (Some (a ++ "bit")) = true.
Proof. simpl. rewrite bool_decide_eq_false_2; [done|]. by destruct a. Qed.

(** X6: an architecture given by its digits alone is read as the digits
    followed by [bit]: [matches] answers the same for both spellings. *)
Theorem matches_arch_digits (self : PythonVersion) (p : predicate) (a : string) :
  isdigit a = true →
  matches env self (set_arch (Some a) p)
  = matches env self (set_arch (Some (a ++ "bit")) p).
Proof.
  intros Ha. unfold matches.
  change (p_arch (set_arch (Some a) p)) with (Some a).
  change (p_arch (set_arch (Some (a ++ "bit")) p)) with (Some (a ++ "bit")).
  rewrite (isdigit_truthy a Ha), truthy_bit. simpl.
  by rewrite Ha, isdigit_bit.
Qed.

(** X8: [get_architecture] answers from what is stored on the instance
    once it has answered: a second call returns the same architecture and
    leaves the instance as the first call left it. *)
Theorem get_architecture_again (self : PythonVersion) :
  get_architecture env (get_architecture env self).2 = get_architecture env self.
Proof.
  unfold get_architecture.
  destruct (truthy_str (architecture self)) eqn:Ht; simpl; [by rewrite Ht|].
  set (arch := match comes_from self with Some _ => _ | None => _ end).
  destruct (negb (bool_decide (arch = EmptyString))) eqn:Ha; simpl; [done|].
  done.
Qed.

(** X10: a version made by [create] with an [architecture] of digits
    stores the digits followed by [bit], and then meets the architecture
    part of every predicate that asks for these digits: [matches] answers
    as it does when no architecture is asked for. *)
Theorem create_architecture_matches (kwargs : dict) (a : string)
    (v : PythonVersion) (p : predicate) :
  kwargs !! "architecture" = Some (VStr a) →
  isdigit a = true →
  PythonVersion_create kwargs = Ok v →
  architecture v = Some (a ++ "bit")
  ∧ matches env v (set_arch (Some a) p) = matches env v (set_arch None p).
Proof.
  intros Hk Ha Hc. unfold PythonVersion_create in Hc. rewrite Hk, Ha in Hc.
  unfold of_dict in Hc. case_bool_decide; [|done]. injection Hc as <-.
  assert (Harch : architecture (setattrs (<["architecture" := VStr (a ++ "bit")]> kwargs)
                                  default_version) = Some (a ++ "bit")).
  { unfold setattrs. simpl. by rewrite lookup_insert_eq. }
  split; [done|].
  set (v := setattrs _ default_version) in *. clearbody v.
  unfold matches.
  change (p_arch (set_arch (Some a) p)) with (Some a).
  change (p_arch (set_arch None p)) with (@None string).
  rewrite (isdigit_truthy a Ha).
  change (truthy_str None) with false. cbv iota.
  unfold get_architecture. rewrite Harch, truthy_bit.
  cbn [fst snd fmap option_fmap option_map default]. rewrite Ha.
  destruct (_ && _); [|done].
  cbn [bind]. by rewrite bool_decide_eq_true_2.
Qed.

End matching.

Lemma matches_arch_digits_witness :
  matches Sample.env Cases.core39 (Cases.with_arch "64")
  = matches Sample.env Cases.core39 (Cases.with_arch "64bit").
Proof.
  exact (matches_arch_digits Sample.env Cases.core39 (Cases.with_arch "32") "64" eq_refl).
Defined.

Lemma create_architecture_matches_witness :
  (let! v := PythonVersion_create Cases.keywords in Ok (architecture v)) = Ok (Some "64bit").
Proof.
  destruct (PythonVersion_create Cases.keywords) as [v|e] eqn:Hv; [|by vm_compute in Hv].
  destruct (create_architecture_matches Sample.env Cases.keywords "64" v
              (Cases.with_arch "64") eq_refl eq_refl Hv) as [H _].
  simpl. by rewrite H.
Defined.

(** ** The two caches *)

Lemma lru_lookup_None (k : string) (c : list (string * nat)) :
  lru_lookup k c = None ↔ k ∉ c.*1.
Proof.
  unfold lru_lookup. rewrite fmap_None, list_find_None, Forall_forall.
  split.
  - intros H (kv & -> & Hin)%list_elem_of_fmap. by apply (H kv).
  - intros H kv Hin Hk. apply H, list_elem_of_fmap. eauto.
Qed.

Lemma lru_lookup_Some (k : string) (c : list (string * nat)) (r : nat) :
  lru_lookup k c = Some r → (k, r) ∈ c.
Proof.
  unfold lru_lookup. intros ([i [k' r']] & Hf & ->)%fmap_Some.
  apply list_find_Some in Hf as (Hi & Hk & _). simpl in *. subst k'.
  by eapply list_elem_of_lookup_2.
Qed.

Lemma lru_lookup_head (k : string) (r : nat) (c : list (string * nat)) :
  lru_lookup k ((k, r) :: c) = Some r.
Proof. unfold lru_lookup. simpl. by rewrite decide_True. Qed.

Lemma filter_other_keys (k : string) (c : list (string * nat)) :
  k ∉ c.*1 → filter (λ kv, kv.1 ≠ k) c = c.
Proof.
  intros Hk. induction c as [|kv c IH]; [done|].
  rewrite fmap_cons, not_elem_of_cons in Hk. destruct Hk as [? ?].
  rewrite filter_cons_True by done. by rewrite IH.
Qed.

Lemma filter_other_keys_not_in (k : string) (c : list (string * nat)) :
  k ∉ (filter (λ kv, kv.1 ≠ k) c).*1.
Proof.
  intros (kv & -> & Hin)%list_elem_of_fmap.
  by apply list_elem_of_filter in Hin as [? _].
Qed.

Lemma lru_touch_again (k : string) (r : nat) (c : list (string * nat)) :
  lru_touch k r (lru_touch k r c) = lru_touch k r c.
Proof.
  unfold lru_touch. rewrite filter_cons_False by (simpl; tauto).
  by rewrite (filter_other_keys k (filter _ c)) by apply filter_other_keys_not_in.
Qed.

Lemma lru_touch_store (k : string) (r : nat) (c : list (string * nat)) :
  k ∉ c.*1 → lru_touch k r (lru_store k r c) = lru_store k r c.
Proof.
  intros Hk. unfold lru_touch, lru_store.
  change maxsize with (S 1023). rewrite firstn_cons.
  rewrite filter_cons_False by (simpl; tauto). f_equal.
  apply filter_other_keys. intros Hin. apply Hk.
  rewrite fmap_take in Hin. by eapply subseteq_take.
Qed.

Section lru.
Context (sel : World → list (string * nat))
        (upd : list (string * nat) → World → World)
        (f : string → M nat).
Hypothesis sel_upd : ∀ c w, sel (upd c w) = c.
Hypothesis upd_upd : ∀ c c' w, upd c (upd c' w) = upd c w.
Hypothesis f_sel : ∀ k w, sel (f k w).1 = sel w.

(** A call that returned finds its key first in the table the next time:
    the same object comes back and the world stays as it is. *)
Lemma lru_cache_again (k : string) (w w1 : World) (r : nat) :
  lru_cache sel upd f k w = (w1, Ok r) →
  lru_cache sel upd f k w1 = (w1, Ok r).
Proof.
  unfold lru_cache. destruct (lru_lookup k (sel w)) as [r0|] eqn:Hl.
  - intros [= <- <-]. rewrite sel_upd. unfold lru_touch at 1.
    rewrite lru_lookup_head. fold (lru_touch k r0 (sel w)).
    by rewrite lru_touch_again, upd_upd.
  - pose proof (f_sel k w) as Hsel.
    destruct (f k w) as [w' [r'|e]]; intros [= <- <-]. simpl in Hsel.
    rewrite sel_upd. unfold lru_store at 1. change maxsize with (S 1023).
    rewrite firstn_cons, lru_lookup_head.
    change (?x :: take 1023 ?c) with (take (S 1023) (x :: c)).
    change (S 1023) with maxsize. fold (lru_store k r' (sel w')).
    rewrite lru_touch_store, upd_upd; [done|].
    rewrite Hsel. by apply lru_lookup_None.
Qed.

(** A call that raised leaves the world as the function under the cache
    left it. *)
Lemma lru_cache_raise (k : string) (w w1 : World) (e : exn) :
  lru_cache sel upd f k w = (w1, Raise e) → f k w = (w1, Raise e).
Proof.
  unfold lru_cache. destruct (lru_lookup k (sel w)); [done|].
  by destruct (f k w) as [w' [r'|e']]; intros [= <- <-].
Qed.

End lru.

Section caches.
Context (env : Env).

Lemma parse_uncached_parse_cache (s : string) (w : World) :
  parse_cache (parse_uncached env s w).1 = parse_cache w.
Proof.
  unfold parse_uncached. destruct (parse_python_version env s); [|done].
  by case_bool_decide.
Qed.

Lemma parse_exe_cache (s : string) (w : World) :
  exe_cache (parse env s w).1 = exe_cache w.
Proof.
  unfold parse, lru_cache. destruct (lru_lookup s (parse_cache w)); [done|].
  unfold parse_uncached. destruct (parse_python_version env s); [|done].
  by case_bool_decide.
Qed.

Lemma parse_executable_uncached_exe_cache (p : string) (w : World) :
  exe_cache (parse_executable_uncached env p w).1 = exe_cache w.
Proof.
  unfold parse_executable_uncached.
  destruct (get_python_version env p) as [[v|]|]; try done.
  by rewrite parse_exe_cache.
Qed.

Lemma parse_raise_unchanged (s : string) (w w1 : World) (e : exn) :
  parse env s w = (w1, Raise e) → w1 = w.
Proof.
  intros H%lru_cache_raise. unfold parse_uncached in H.
  destruct (parse_python_version env s); [case_bool_decide|]; by simplify_eq.
Qed.

(** X11: [parse] is memoized.  After a call that returned, a call with the
    same string returns the same dictionary object and changes nothing:
    no new dictionary is made and the cache keeps its order.  A call that
    raised is not remembered: it leaves the world as it found it. *)
Theorem parse_memoized (s : string) (w : World) :
  (∀ w1 r, parse env s w = (w1, Ok r) → parse env s w1 = (w1, Ok r))
  ∧ (∀ w1 e, parse env s w = (w1, Raise e) → w1 = w).
Proof.
  split.
  - intros w1 r. apply lru_cache_again; [done|done|].
    apply parse_uncached_parse_cache.
  - intros w1 e. apply parse_raise_unchanged.
Qed.

(** X12: [parse_executable] probes an executable once while its path is
    in the cache.  After a call that returned, a call with the same path
    returns the same dictionary object and changes nothing, so the
    executable is not run again.  A call that raised has run the probe
    and stored nothing. *)
Theorem parse_executable_memoized (p : string) (w : World) :
  (∀ w1 r, parse_executable env p w = (w1, Ok r) →
           parse_executable env p w1 = (w1, Ok r))
  ∧ (∀ w1 e, parse_executable env p w = (w1, Raise e) → w1 = log_probe p w).
Proof.
  split.
  - intros w1 r. apply lru_cache_again; [done|done|].
    apply parse_executable_uncached_exe_cache.
  - intros w1 e H%lru_cache_raise. unfold parse_executable_uncached in H.
    destruct (get_python_version env p) as [[v|]|]; try by simplify_eq.
    destruct (parse env (strip v) (log_probe p w)) as [w' [r|e']] eqn:Hp; simplify_eq.
    by apply parse_raise_unchanged in Hp.
Qed.

End caches.

Lemma parse_memoized_witness :
  parse Sample.env "3.9.1" (parse Sample.env "3.9.1" empty_world).1
  = parse Sample.env "3.9.1" empty_world.
Proof.
  destruct (parse Sample.env "3.9.1" empty_world) as [w1 [r|e]] eqn:H;
    [|by vm_compute in H].
  exact (proj1 (parse_memoized Sample.env "3.9.1" empty_world) w1 r H).
Defined.

Lemma parse_executable_memoized_witness :
  let exe := "/opt/pyenv/versions/system/bin/python" in
  let first := parse_executable Sample.env exe empty_world in
  parse_executable Sample.env exe first.1 = first
  ∧ probes first.1 = [exe].
Proof.
  intros exe first. split; [|reflexivity]. unfold first.
  destruct (parse_executable Sample.env exe empty_world) as [w1 [r|e]] eqn:H;
    [|by vm_compute in H].
  exact (proj1 (parse_executable_memoized Sample.env exe empty_world) w1 r H).
Defined.

(** *** The caches stay in good order *)

Lemma cache_ok_heap (h h' : list dict) (c : list (string * nat)) :
  (length h ≤ length h')%nat → cache_ok h c → cache_ok h' c.
Proof.
  intros Hh (Hnd & Hlen & Hr). repeat split; [done|done|].
  eapply Forall_impl; [exact Hr|]. intros kv ?. simpl in *. lia.
Qed.

Lemma cache_ok_touch (h : list dict) (c : list (string * nat)) (k : string) (r : nat) :
  cache_ok h c → lru_lookup k c = Some r → cache_ok h (lru_touch k r c).
Proof.
  intros (Hnd & Hlen & Hr) Hin%lru_lookup_Some. unfold lru_touch. repeat split.
  - rewrite fmap_cons. apply NoDup_cons. split; [apply filter_other_keys_not_in|].
    eapply sublist_NoDup; [exact Hnd|apply fmap_sublist, sublist_filter].
  - simpl.
    pose proof (length_filter_lt (λ kv : string * nat, kv.1 ≠ k) c (k, r) Hin
                  (λ H, H eq_refl)).
    lia.
  - constructor.
    + by apply (proj1 (Forall_forall _ _) Hr (k, r)).
    + apply Forall_forall. intros kv [_ ?]%list_elem_of_filter.
      by apply (proj1 (Forall_forall _ _) Hr).
Qed.

Lemma cache_ok_store (h : list dict) (c : list (string * nat)) (k : string) (r : nat) :
  cache_ok h c → lru_lookup k c = None → (r < length h)%nat →
  cache_ok h (lru_store k r c).
Proof.
  intros (Hnd & Hlen & Hr) Hk%lru_lookup_None Hlt. unfold lru_store. repeat split.
  - rewrite fmap_take. eapply sublist_NoDup; [|apply sublist_take].
    rewrite fmap_cons. by apply NoDup_cons.
  - rewrite length_take. lia.
  - apply Forall_take. by constructor.
Qed.

Section invariant.
Context (env : Env).

Lemma keeps_refl (w : World) : keeps w w.
Proof. by split. Qed.

Lemma keeps_trans (w1 w2 w3 : World) : keeps w1 w2 → keeps w2 w3 → keeps w1 w3.
Proof. intros [? ?] [? ?]. split; [lia|auto]. Qed.

Lemma parse_keeps (s : string) (w : World) :
  keeps w (parse env s w).1
  ∧ ∀ r, caches_ok w → (parse env s w).2 = Ok r → (r < length (heap (parse env s w).1))%nat.
Proof.
  unfold parse, lru_cache. destruct (lru_lookup s (parse_cache w)) as [r0|] eqn:Hl.
  - unfold keeps. simpl. split; [split; [done|]|].
    + intros [Hp He]. split; [by apply cache_ok_touch|done].
    + intros r [(_ & _ & Hp) _] [= <-]. apply lru_lookup_Some in Hl.
      by apply (proj1 (Forall_forall _ _) Hp (s, r0)).
  - unfold parse_uncached. destruct (parse_python_version env s) as [d|e];
      [|split; [apply keeps_refl|done]].
    case_bool_decide; [split; [apply keeps_refl|done]|].
    unfold keeps. simpl. rewrite length_app. simpl. split; [split; [lia|]|].
    + intros [Hp He]. split; simpl.
      * apply cache_ok_store; [|done|rewrite length_app; simpl; lia].
        eapply cache_ok_heap; [|exact Hp]. rewrite length_app. lia.
      * eapply cache_ok_heap; [|exact He]. rewrite length_app. lia.
    + intros r _ [= <-]. lia.
Qed.

Lemma keeps_log_probe (p : string) (w : World) : keeps w (log_probe p w).
Proof. by split. Qed.

Lemma parse_executable_keeps (p : string) (w : World) :
  keeps w (parse_executable env p w).1
  ∧ ∀ r, caches_ok w → (parse_executable env p w).2 = Ok r →
         (r < length (heap (parse_executable env p w).1))%nat.
Proof.
  unfold parse_executable, lru_cache.
  destruct (lru_lookup p (exe_cache w)) as [r0|] eqn:Hl.
  - unfold keeps. simpl. split; [split; [done|]|].
    + intros [Hp He]. split; [done|by apply cache_ok_touch].
    + intros r [_ (_ & _ & He)] [= <-]. apply lru_lookup_Some in Hl.
      by apply (proj1 (Forall_forall _ _) He (p, r0)).
  - unfold parse_executable_uncached.
    destruct (get_python_version env p) as [[v|]|];
      [|split; [apply keeps_log_probe|done]..].
    pose proof (parse_keeps (strip v) (log_probe p w)) as [[Hlen Hok] Href].
    pose proof (parse_exe_cache env (strip v) (log_probe p w)) as Hexe.
    destruct (parse env (strip v) (log_probe p w)) as [w1 [r|e]]; simpl in *;
      [|by split].
    unfold keeps. simpl. split; [split; [done|]|].
    + intros Hw. destruct (Hok Hw) as [Hp He]. split; simpl; [done|].
      apply cache_ok_store; [done|by rewrite Hexe|by apply Href].
    + intros r' Hw [= <-]. by apply Href.
Qed.

Lemma getattribute_keeps (key : lazy_field) (self : PythonVersion) (w : World) :
  keeps w (__getattribute__ env key self w).1.
Proof.
  unfold __getattribute__. destruct (stored key self); [apply keeps_refl|].
  destruct (known_executable self) as [exe|]; [|apply keeps_refl].
  pose proof (parse_executable_keeps exe w) as [H _].
  by destruct (parse_executable env exe w) as [w1 [r|e]].
Qed.

Lemma from_path_keeps (entry : PathEntry) (name : option string)
    (ignore_unsupported : bool) (company : option string) (w : World) :
  keeps w (from_path env entry name ignore_unsupported company w).1.
Proof.
  unfold from_path. destruct (_ && _); [apply keeps_refl|].
  assert (Hfirst : ∀ w1 r1,
    match parse env (entry_name entry) w with
    | (w', Raise _) => parse_executable env (as_posix (path entry)) w'
    | (w', Ok d) =>
        if bool_decide (dict_get (deref w' d) "minor" = VNone)
           && looks_like_python env (path_name (path entry))
        then parse_executable env (as_posix (path entry)) w'
        else (w', Ok d)
    end = (w1, r1) → keeps w w1).
  { intros w1 r1 H. pose proof (parse_keeps (entry_name entry) w) as [Hp _].
    destruct (parse env (entry_name entry) w) as [w' [d|e]]; simpl in Hp.
    - destruct (_ && _); [|by simplify_eq].
      pose proof (parse_executable_keeps (as_posix (path entry)) w') as [He _].
      rewrite H in He. by eapply keeps_trans.
    - pose proof (parse_executable_keeps (as_posix (path entry)) w') as [He _].
      rewrite H in He. by eapply keeps_trans. }
  destruct (match parse env (entry_name entry) w with
            | (w', Raise _) => _ | (w', Ok d) => _ end) as [w1 r1] eqn:H1.
  specialize (Hfirst w1 r1 eq_refl).
  destruct r1 as [d1|e]; [|done].
  destruct (_ && _); [done|].
  assert (Hsecond : ∀ w2 r2,
    (if bool_decide (dict_get (deref w1 d1) "patch" = VNone)
     then parse_executable env (as_posix (path entry)) w1
     else (w1, Ok d1)) = (w2, r2) → keeps w1 w2).
  { intros w2 r2 H. case_bool_decide; [|simplify_eq; apply keeps_refl].
    pose proof (parse_executable_keeps (as_posix (path entry)) w1) as [He _].
    by rewrite H in He. }
  destruct (if bool_decide _ then _ else _) as [w2 r2] eqn:H2.
  specialize (Hsecond w2 r2 eq_refl).
  destruct r2 as [d2|e]; [|by eapply keeps_trans].
  simpl. eapply keeps_trans; [exact Hfirst|]. eapply keeps_trans; [exact Hsecond|].
  split; simpl; [by rewrite length_insert|].
  intros [Hp He]. split; (eapply cache_ok_heap; [|done]); simpl;
    by rewrite length_insert.
Qed.

(** X13: the class-level caches stay in good order.  From a world in
    which neither cache holds a key twice, more than 1024 entries, or a
    reference to no dictionary, [parse], [parse_executable], a lazy read
    of [minor] or [patch], and [from_path] lead to such a world again,
    whether they return or raise. *)
Theorem caches_stay_ok (w : World) (s : string) (key : lazy_field)
    (self : PythonVersion) (entry : PathEntry) (name : option string)
    (ignore_unsupported : bool) (company : option string) :
  caches_ok w →
  caches_ok (parse env s w).1
  ∧ caches_ok (parse_executable env s w).1
  ∧ caches_ok (__getattribute__ env key self w).1
  ∧ caches_ok (from_path env entry name ignore_unsupported company w).1.
Proof.
  intros Hw. split; [|split; [|split]].
  - exact (proj2 (proj1 (parse_keeps s w)) Hw).
  - exact (proj2 (proj1 (parse_executable_keeps s w)) Hw).
  - exact (proj2 (getattribute_keeps key self w) Hw).
  - exact (proj2 (from_path_keeps entry name ignore_unsupported company w) Hw).
Qed.

End invariant.

Lemma caches_stay_ok_witness :
  caches_ok (from_path Sample.env Sample.python391 None true None empty_world).1.
Proof.
  refine (proj2 (proj2 (proj2 (caches_stay_ok Sample.env empty_world "3.9.1" Minor
                                  Sample.broken Sample.python391 None true None _)))).
  unfold caches_ok, cache_ok. simpl.
  repeat split; (apply NoDup_nil_2 || apply Nat.le_0_l || apply Forall_nil_2).
Defined.

(** ** [from_path], [version_sort] on an unresolved instance and
    [update_metadata] *)

Section from_path_facts.
Context (env : Env).

Lemma deref_insert (w : World) (r : nat) (d : dict) :
  (r < length (heap w))%nat →
  deref (set_heap (<[r := d]> (heap w)) w) r = d.
Proof. intros Hr. unfold deref. simpl. by rewrite list_lookup_insert_eq. Qed.

(** The dictionary [from_path] settles on is one of the heap. *)
Lemma from_path_first_stage (entry : PathEntry) (w w1 : World) (d1 : nat) :
  caches_ok w →
  match parse env (entry_name entry) w with
  | (w', Raise _) => parse_executable env (as_posix (path entry)) w'
  | (w', Ok d) =>
      if bool_decide (dict_get (deref w' d) "minor" = VNone)
         && looks_like_python env (path_name (path entry))
      then parse_executable env (as_posix (path entry)) w'
      else (w', Ok d)
  end = (w1, Ok d1) →
  caches_ok w1 ∧ (d1 < length (heap w1))%nat.
Proof.
  intros Hw H.
  pose proof (parse_keeps env (entry_name entry) w) as [[_ Hok] Href].
  destruct (parse env (entry_name entry) w) as [w' [d|e]]; simpl in *.
  - destruct (_ && _); [|simplify_eq; auto].
    pose proof (parse_executable_keeps env (as_posix (path entry)) w') as [[_ Hok'] Href'].
    rewrite H in Hok', Href'. simpl in *. auto.
  - pose proof (parse_executable_keeps env (as_posix (path entry)) w') as [[_ Hok'] Href'].
    rewrite H in Hok', Href'. simpl in *. auto.
Qed.

Lemma from_path_second_stage (entry : PathEntry) (w1 w2 : World) (d1 d2 : nat) :
  caches_ok w1 → (d1 < length (heap w1))%nat →
  (if bool_decide (dict_get (deref w1 d1) "patch" = VNone)
   then parse_executable env (as_posix (path entry)) w1
   else (w1, Ok d1)) = (w2, Ok d2) →
  (d2 < length (heap w2))%nat.
Proof.
  intros Hw Hd H. case_bool_decide; [|by simplify_eq].
  pose proof (parse_executable_keeps env (as_posix (path entry)) w1) as [_ Href].
  rewrite H in Href. simpl in *. auto.
Qed.

(** X14: the version [from_path] returns knows where it comes from: its
    [executable] and [comes_from] are the path of the entry and its name
    is the name given, or the name of the entry when none is given.  The
    [company] argument does not reach the instance: the call returns the
    same for every company. *)
Theorem from_path_origin (entry : PathEntry) (nm : option string)
    (ignore_unsupported : bool) (company : option string)
    (w w' : World) (v : PythonVersion) :
  caches_ok w →
  from_path env entry nm ignore_unsupported company w = (w', Ok v) →
  executable v = Some (as_posix (path entry))
  ∧ comes_from v = Some (as_posix (path entry))
  ∧ name v = Some (default (entry_name entry) nm)
  ∧ ∀ company', from_path env entry nm ignore_unsupported company' w = (w', Ok v).
Proof.
  intros Hw H. split; [|split; [|split]]; [| | |done];
    unfold from_path in H;
    (destruct (_ && _); [done|]);
    (destruct (match parse env (entry_name entry) w with
               | (w0, Raise _) => _ | (w0, Ok d) => _ end) as [w1 [d1|e]] eqn:H1;
       [|done]);
    (destruct (from_path_first_stage entry w w1 d1 Hw H1) as [Hw1 Hd1]);
    (destruct (_ && _); [done|]);
    (destruct (if bool_decide _ then _ else _) as [w2 [d2|e]] eqn:H2; [|done]);
    pose proof (from_path_second_stage entry w1 w2 d1 d2 Hw1 Hd1 H2) as Hd2;
    rewrite deref_insert in H by done;
    injection H as _ H; unfold of_dict in H;
    (case_bool_decide; [|done]); injection H as <-;
    unfold setattrs; simpl.
  - by rewrite lookup_insert_eq.
  - by rewrite lookup_insert_ne, lookup_insert_ne, lookup_insert_eq.
  - by rewrite lookup_insert_ne, lookup_insert_eq.
Qed.

(** X15: in strict mode [from_path] turns away an entry that is not a
    Python executable before it parses or probes anything; in tolerant
    mode it reads nothing of the entry but its path and its name. *)
Theorem from_path_strict_and_tolerant (entry entry' : PathEntry) (nm : option string)
    (ignore_unsupported : bool) (company : option string) (w : World) :
  (is_python entry = false → ignore_unsupported = false →
   IGNORE_UNSUPPORTED env = false →
   from_path env entry nm ignore_unsupported company w = (w, Raise ValueError))
  ∧ (ignore_unsupported || IGNORE_UNSUPPORTED env = true →
     path entry' = path entry → entry_name entry' = entry_name entry →
     from_path env entry' nm ignore_unsupported company w
     = from_path env entry nm ignore_unsupported company w).
Proof.
  split.
  - intros Hp -> Hi. unfold from_path. by rewrite Hp, Hi.
  - intros Ht Hpath Hname. unfold from_path.
    rewrite Hpath, Hname, Ht. simpl. by rewrite !andb_false_r.
Qed.

(** X16: [version_sort] on an instance that lacks [minor] runs the probe
    once when it reports [minor] and [patch]: the read of [minor] stores
    both, and the read of [patch] finds it stored.  The key is made of
    the company, [major] and release rank the instance had before the
    probe and of the [minor] and [patch] the probe reports. *)
Theorem version_sort_property_one_probe (self : PythonVersion) (exe : string)
    (w w1 : World) (r : nat) (m p : Z) :
  minor self = None →
  known_executable self = Some exe →
  lru_lookup exe (exe_cache w) = None →
  parse_executable env exe w = (w1, Ok r) →
  as_int (dict_get (deref w1 r) "minor") = Some m →
  as_int (dict_get (deref w1 r) "patch") = Some p →
  version_sort_property env self w
  = (w1, Ok ((let '(c, M, _, _, k) := version_sort self in (c, M, Some m, p, k)),
             setattrs (deref w1 r) self))
  ∧ probes w1 = (probes w ++ [exe])%list.
Proof.
  intros Hm Hexe Hl Hpe Hdm Hdp. split.
  - unfold version_sort_property.
    assert (Hfirst : __getattribute__ env Minor self w
                     = (w1, Ok (Some m, setattrs (deref w1 r) self))).
    { unfold __getattribute__. simpl. by rewrite Hm, Hexe, Hpe, Hdm. }
    rewrite Hfirst.
    rewrite (getattribute_stored env Patch (setattrs (deref w1 r) self) w1 p)
      by by apply stored_setattrs.
    unfold version_sort. simpl.
    assert (Hp0 : (if negb (bool_decide (p = 0)) then p else 0) = p)
      by (case_bool_decide; simpl; by subst).
    by rewrite Hp0.
  - pose proof (getattribute_probes env Minor self w exe Hm Hexe) as Hp.
    rewrite Hl in Hp. unfold __getattribute__ in Hp. simpl in Hp.
    by rewrite Hm, Hexe, Hpe in Hp.
Qed.

End from_path_facts.

Lemma from_path_origin_witness :
  (let! v := (from_path Sample.env Sample.python391 None true (Some "PythonCore")
                empty_world).2 in Ok (executable v, name v, company v))
  = Ok (Some "/opt/pyenv/versions/system/bin/python", Some "python", None).
Proof.
  destruct (from_path Sample.env Sample.python391 None true (Some "PythonCore")
              empty_world) as [w' [v|e]] eqn:H; [|by vm_compute in H].
  assert (Hw : caches_ok empty_world).
  { unfold caches_ok, cache_ok. simpl.
    repeat split; (apply NoDup_nil_2 || apply Nat.le_0_l || apply Forall_nil_2). }
  destruct (from_path_origin Sample.env Sample.python391 None true (Some "PythonCore")
              empty_world w' v Hw H) as (He & _ & Hn & Hc).
  simpl. rewrite He, Hn. do 3 f_equal.
  specialize (Hc None). vm_compute in Hc. by injection Hc as _ <-.
Defined.

Lemma version_sort_property_one_probe_witness :
  let exe := "/opt/pyenv/versions/system/bin/python" in
  let out := version_sort_property Sample.env Cases.unresolved empty_world in
  (let! r := out.2 in Ok (r.1, is_postrelease r.2)) = Ok ((0, 3, Some 9, 1, 3), false)
  ∧ probes out.1 = [exe].
Proof.
  intros exe out.
  destruct (parse_executable Sample.env exe empty_world) as [w1 [r|e]] eqn:Hpe;
    [|by vm_compute in Hpe].
  assert (Hr : r = 0%nat) by (vm_compute in Hpe; by injection Hpe as _ <-).
  assert (Hd : deref w1 r = Sample.fields 3 9 1 false "3.9.1").
  { vm_compute in Hpe. injection Hpe as <- <-. vm_compute. reflexivity. }
  destruct (version_sort_property_one_probe Sample.env Cases.unresolved exe
              empty_world w1 r 9 1 eq_refl eq_refl eq_refl Hpe) as [Hk Hp].
  - rewrite Hd. reflexivity.
  - rewrite Hd. reflexivity.
  - unfold out. rewrite Hk, Hd. split; [reflexivity|exact Hp].
Defined.

Lemma version_sort_property_resolved_witness :
  version_sort_property Sample.env Cases.core39 empty_world
  = (empty_world, Ok ((1, 3, Some 9, 0, 0), Cases.core39)).
Proof.
  exact (version_sort_property_resolved Sample.env Cases.core39 empty_world
           (ex_intro _ 9 eq_refl) (ex_intro _ 0 eq_refl)).
Defined.

Lemma from_path_strict_and_tolerant_witness :
  from_path Sample.env
    (entry (create_entry Sample.host (Sample.versions_dir ++ ["3.9.0"; "bin"])%list "3.9.0"))
    None false None empty_world
  = (empty_world, Raise ValueError).
Proof.
  exact (proj1 (from_path_strict_and_tolerant Sample.env
                  (entry (create_entry Sample.host
                            (Sample.versions_dir ++ ["3.9.0"; "bin"])%list "3.9.0"))
                  Sample.python390 None false None empty_world)
           eq_refl eq_refl eq_refl).
Defined.

Section metadata.
Context (env : Env).

Lemma from_option_insert {A} (f : pyval → A) (old : A) (k n : string) (v : pyval)
    (d : dict) :
  d !! k = None →
  from_option f old (<[k := v]> d !! n)
  = from_option f (from_option f old (({[k := v]} : dict) !! n)) (d !! n).
Proof.
  intros Hk. destruct (decide (k = n)) as [->|Hne].
  - by rewrite lookup_insert_eq, lookup_singleton_eq, Hk.
  - by rewrite lookup_insert_ne, lookup_singleton_ne.
Qed.

(** Setting the attributes a dictionary names comes to setting those of
    one key and then those of the others. *)
Lemma setattrs_insert (k : string) (v : pyval) (d : dict) (self : PythonVersion) :
  d !! k = None →
  setattrs (<[k := v]> d) self = setattrs d (setattrs {[k := v]} self).
Proof.
  intros Hk. unfold setattrs. simpl.
  rewrite !(from_option_insert _ _ k _ v d Hk).
  destruct (decide (k = "major")) as [->|Hne].
  - by rewrite Hk, lookup_singleton_eq.
  - by rewrite (lookup_singleton_ne k "major").
Qed.

Lemma setattrs_unknown (k : string) (v : pyval) (d : dict) (self : PythonVersion) :
  k ∉ attribute_names →
  setattrs (<[k := v]> d) self = setattrs d self.
Proof.
  intros Hk. unfold setattrs.
  assert (Hne : ∀ n, n ∈ attribute_names → <[k := v]> d !! n = d !! n).
  { intros n Hn. apply lookup_insert_ne. by intros ->. }
  rewrite !Hne by (refine (bool_decide_unpack (_ ∈ _) _); vm_compute; exact I). done.
Qed.

Lemma stored_setattrs_other (key : lazy_field) (k : string) (v : pyval)
    (self : PythonVersion) :
  k ≠ field_name key →
  stored key (setattrs {[k := v]} self) = stored key self.
Proof.
  intros Hne. destruct key; simpl in *; by rewrite lookup_singleton_ne.
Qed.

Lemma lazy_of_field (k : string) (key : lazy_field) :
  lazy_of k = Some key → k = field_name key.
Proof.
  unfold lazy_of. repeat case_bool_decide; intros [= <-]; done.
Qed.

(** X18: metadata that names [minor] or [patch] cannot be stored on an
    instance that lacks it and whose executable does not run: the read
    before the store probes the executable, and [update_metadata] raises
    [ValueError] before it stores the value. *)
Theorem update_metadata_probe_fails (k : string) (v : pyval)
    (rest : list (string * pyval)) (key : lazy_field)
    (self : PythonVersion) (w : World) (exe : string) :
  k = field_name key →
  stored key self = None →
  known_executable self = Some exe →
  lru_lookup exe (exe_cache w) = None →
  (∀ s, get_python_version env exe ≠ Ok (Some s)) →
  update_metadata env ((k, v) :: rest) self w = (log_probe exe w, Raise ValueError).
Proof.
  intros -> Hs Hexe Hl Hp. simpl.
  rewrite bool_decide_eq_true_2
    by (destruct key; refine (bool_decide_unpack (_ ∈ _) _); vm_compute; exact I).
  assert (Hlazy : lazy_of (field_name key) = Some key) by by destruct key.
  rewrite Hlazy. unfold __getattribute__. rewrite Hs, Hexe.
  by rewrite parse_executable_probe_fails.
Qed.

End metadata.

Lemma update_metadata_probe_fails_witness :
  update_metadata Sample.env [("minor", VInt 9)] Sample.broken empty_world
  = (log_probe "/opt/broken/bin/python" empty_world, Raise ValueError).
Proof.
  apply (update_metadata_probe_fails Sample.env "minor" (VInt 9) [] Minor
           Sample.broken empty_world "/opt/broken/bin/python");
    try reflexivity.
  intros s. vm_compute. discriminate.
Defined.

(** ** Further properties of [VersionMap] *)

Lemma set_versions_same (self : VersionMap) : set_versions (versions self) self = self.
Proof. by destruct self. Qed.









(** The paths of two lists merged are the paths of either. *)
Lemma merged_paths (mine theirs : list PathEntry) (x : Path) :
  x ∈ path <$> (mine ++ filter (λ e, path e ∉ path <$> mine) theirs)%list
  ↔ x ∈ path <$> mine ∨ x ∈ path <$> theirs.
Proof.
  rewrite fmap_app, elem_of_app, !list_elem_of_fmap. split.
  - intros [H|(e & -> & [_ He]%list_elem_of_filter)]; [by left|right; eauto].
  - intros [H|(e & -> & He)]; [by left|].
    destruct (decide (path e ∈ path <$> mine)) as [Hin|Hin].
    + left. by apply list_elem_of_fmap.
    + right. exists e. split; [done|]. by apply list_elem_of_filter.
Qed.

Lemma merged_NoDup (mine theirs : list PathEntry) :
  NoDup (path <$> mine) → NoDup (path <$> theirs) →
  NoDup (path <$> (mine ++ filter (λ e, path e ∉ path <$> mine) theirs)%list).
Proof.
  intros Hm Ht. rewrite fmap_app. apply NoDup_app. split; [done|]. split.
  - intros x Hx (e & -> & [He _]%list_elem_of_filter)%list_elem_of_fmap. done.
  - eapply sublist_NoDup; [exact Ht|].
    apply fmap_sublist, sublist_filter.
Qed.

(** X22: [merge] of two maps whose lists are free of repeated paths
    leaves a map whose lists are free of them. *)
Theorem merge_distinct_paths (self target : VersionMap) :
  distinct_paths self → distinct_paths target →
  distinct_paths (merge self target).
Proof.
  intros Hs Ht k l. rewrite merge_lookup.
  destruct (versions self !! k) as [mine|] eqn:Hm,
           (versions target !! k) as [theirs|] eqn:Hk; simpl; intros [= <-].
  - apply merged_NoDup; [by eapply Hs|by eapply Ht].
  - by eapply Hs.
  - by eapply Ht.
Qed.

Lemma merge_distinct_paths_witness :
  distinct_paths (merge Cases.map390 Cases.map390post).
Proof.
  apply (merge_distinct_paths Cases.map390 Cases.map390post);
    intros k l Hl; unfold Cases.map390, Cases.map390post in Hl; simpl in Hl;
    apply lookup_singleton_Some in Hl as [_ <-];
    refine (bool_decide_unpack (NoDup _) _); vm_compute; exact I.
Defined.

Lemma merged_assoc (a b c : option (list PathEntry)) :
  merged (merged a b) c = merged a (merged b c).
Proof.
  destruct a as [a|], b as [b|], c as [c|]; simpl; try done.
  f_equal. rewrite <- app_assoc. f_equal.
  rewrite filter_app, list_filter_filter. f_equal.
  apply filter_ext_elem. intros e He. rewrite merged_paths. tauto.
Qed.

(** X23: [merge] is associative, with the empty map as its neutral
    element: merging [b] and then [c] into a map leaves in it what merging
    into it the map [b] with [c] merged in leaves; merging the empty map
    or the map itself into a map changes nothing, and the empty map takes
    the lists of the map merged in. *)
Theorem merge_associative_neutral (a b c : VersionMap) :
  merge (merge a b) c = merge a (merge b c)
  ∧ merge a VersionMap_new = a
  ∧ merge a a = a
  ∧ versions (merge VersionMap_new a) = versions a.
Proof.
  split; [|split; [|split]].
  - assert (Hv : versions (merge (merge a b) c) = versions (merge a (merge b c))).
    { apply map_eq. intros k. rewrite !merge_lookup. apply merged_assoc. }
    unfold merge, set_versions in *. simpl in *. by rewrite Hv.
  - unfold merge. simpl. rewrite map_fold_empty. apply set_versions_same.
  - rewrite <- (set_versions_same a) at 3. unfold merge, set_versions. f_equal.
    apply map_eq. intros k.
    change (versions (merge a a) !! k = versions a !! k).
    rewrite merge_lookup. destruct (versions a !! k) as [l|]; simpl; [|done].
    rewrite (filter_none (λ e, path e ∉ path <$> l)).
    { by rewrite app_nil_r. }
    intros e He Hn. apply Hn, list_elem_of_fmap. eauto.
  - apply map_eq. intros k. rewrite merge_lookup. simpl. by rewrite lookup_empty.
Qed.



(** ** Further properties of the finder *)

Lemma remove_first_elem (x y : Path) (l : list Path) :
  y ∈ remove_first x l → y ∈ l.
Proof.
  induction l as [|a l IH]; simpl; [done|].
  case_bool_decide; [by right|].
  intros [->|?]%elem_of_cons; [by left|right; auto].
Qed.

Lemma remove_first_other (x y : Path) (l : list Path) :
  y ≠ x → y ∈ l → y ∈ remove_first x l.
Proof.
  intros Hne. induction l as [|a l IH]; simpl; [done|].
  intros [->|Hin]%elem_of_cons.
  - rewrite bool_decide_eq_false_2 by congruence. by left.
  - case_bool_decide; [done|]. right. auto.
Qed.

Lemma foldl_remove_elem (order vp : list Path) (y : Path) :
  y ∈ foldl (λ vp version,
               if bool_decide (version ∈ vp) then remove_first version vp else vp)
            vp order →
  y ∈ vp.
Proof.
  revert vp. induction order as [|v order IH]; intros vp; simpl; [done|].
  intros H%IH. case_bool_decide; [by eapply remove_first_elem|done].
Qed.

Lemma foldl_remove_other (order vp : list Path) (y : Path) :
  y ∉ order → y ∈ vp →
  y ∈ foldl (λ vp version,
               if bool_decide (version ∈ vp) then remove_first version vp else vp)
            vp order.
Proof.
  revert vp. induction order as [|v order IH]; intros vp Hn Hin; simpl; [done|].
  apply not_elem_of_cons in Hn as [Hne Hn]. apply IH; [done|].
  case_bool_decide; [by apply remove_first_other|done].
Qed.

Section finder_more.
Context (env : Env) (host : Host).

(** Whatever the listing repeats, the order returned holds the listed
    paths outside [envs] and no other. *)
Lemma get_version_order_elem (self : PythonFinder) (p : Path) :
  p ∈ get_version_order host self
  ↔ p ∈ glob host (root self) (version_glob_path self)
    ∧ path_name p ≠ "envs" ∧ path_name (path_parent p) ≠ "envs".
Proof.
  unfold get_version_order.
  set (vp := filter _ (glob host (root self) (version_glob_path self))).
  set (named := foldl (λ (m : gmap string Path) v, <[path_name v := v]> m) ∅ vp).
  set (order := if is_pyenv host self then _ else _).
  assert (Hvp : p ∈ vp ↔ p ∈ glob host (root self) (version_glob_path self)
                         ∧ path_name p ≠ "envs" ∧ path_name (path_parent p) ≠ "envs").
  { unfold vp. rewrite list_elem_of_filter. tauto. }
  rewrite <- Hvp. clear Hvp.
  assert (Hnamed : ∀ (names : list string) x,
            x ∈ omap (λ v, named !! v) names → x ∈ vp).
  { intros names x (v & _ & Hl)%list_elem_of_omap.
    unfold named in Hl. rewrite foldl_insert_name, lookup_empty in Hl.
    destruct (last _) as [x'|] eqn:Hlast; [|done]. simplify_eq.
    apply last_Some in Hlast as [l' Hl'].
    assert (x ∈ filter (λ p, path_name p = v) vp) as Hin.
    { rewrite Hl'. apply elem_of_app. right. by left. }
    by apply list_elem_of_filter in Hin as [_ ?]. }
  assert (Horder : ∀ x, x ∈ order → x ∈ vp).
  { intros x. unfold order. destruct (is_pyenv host self); [apply Hnamed|].
    destruct (is_asdf host self); [apply Hnamed|]. by intros ?%elem_of_nil. }
  case_bool_decide as Hne.
  - rewrite elem_of_app. split.
    + intros [?|?]; [by apply Horder|by eapply foldl_remove_elem].
    + intros Hin. destruct (decide (p ∈ order)); [by left|right].
      by apply foldl_remove_other.
  - clearbody order. destruct order as [|x order]; [done|].
    discriminate Hne.
Qed.

(** A base that is offered is a listed path outside [envs] whose [bin]
    directory is there, with the root entry made for that directory. *)
Lemma iter_version_bases_elem (self : PythonFinder) (p : Path) (e : RootEntry) :
  (p, e) ∈ _iter_version_bases host self →
  p ∈ get_version_order host self
  ∧ exists_dir host (get_bin_dir host p) = true
  ∧ e = create_entry host (get_bin_dir host p) (path_name p).
Proof.
  unfold _iter_version_bases. intros (x & Hx & Hs)%list_elem_of_omap.
  destruct (exists_dir host (get_bin_dir host x)) eqn:Hd; [|done].
  by simplify_eq.
Qed.

(** A round yields the base it was given, with the six values read off
    the dictionary [parse] returned for the name of its entry. *)
Lemma iter_versions_round_yielded (self : PythonFinder) (base : Path * RootEntry)
    (w w' : World) (it : Path * RootEntry * version_key) :
  _iter_versions_round env self base w = (w', Yielded it) →
  it.1 = base
  ∧ ∃ d, parse env (entry_name (entry base.2)) w = (w', Ok d)
         ∧ it.2 = key_of_dict (deref w' d).
Proof.
  unfold _iter_versions_round. destruct base as [bp e].
  destruct (parse env (entry_name (entry e)) w) as [w1 [d|x]] eqn:Hp.
  - intros [= <- <-]. split; [done|]. by exists d.
  - destruct (is_value_or_invalid x), (ignore_unsupported self); simpl; intros [=].
Qed.

(** The two modes differ in one thing: where the strict round raises,
    the tolerant round passes over. *)
Lemma iter_versions_round_modes (self : PythonFinder) (base : Path * RootEntry)
    (w : World) :
  let strict := _iter_versions_round env (with_ignore_unsupported false self) base w in
  let tolerant := _iter_versions_round env (with_ignore_unsupported true self) base w in
  strict.1 = tolerant.1
  ∧ (strict.2 = tolerant.2 ∧ (∀ e, strict.2 ≠ Raised e)
     ∨ (∃ e, strict.2 = Raised e) ∧ tolerant.2 = Skipped).
Proof.
  unfold _iter_versions_round. destruct base as [bp e]. simpl.
  destruct (parse env (entry_name (entry e)) w) as [w1 [d|x]]; simpl.
  - split; [done|]. left. split; [done|]. intros ? [=].
  - destruct (is_value_or_invalid x); simpl; (split; [done|]); right; eauto.
Qed.

(** The items yielded are bases, in the order of the bases. *)
Lemma iter_versions_from_sublist (self : PythonFinder)
    (bases : list (Path * RootEntry)) (w : World) :
  (_iter_versions_from env self bases w).2.1.*1 `sublist_of` bases.
Proof.
  revert w. induction bases as [|base bases IH]; intros w; simpl; [done|].
  destruct (_iter_versions_round env self base w) as [w1 [it| |e]] eqn:Hr.
  - specialize (IH w1).
    destruct (_iter_versions_from env self bases w1) as [w2 [items e]].
    simpl in *.
    destruct (iter_versions_round_yielded _ _ _ _ _ Hr) as [Hb _].
    rewrite Hb. by constructor.
  - by constructor.
  - apply sublist_nil_l.
Qed.

Lemma iter_versions_from_modes (self : PythonFinder)
    (bases : list (Path * RootEntry)) (w : World) :
  let strict := _iter_versions_from env (with_ignore_unsupported false self) bases w in
  let tolerant := _iter_versions_from env (with_ignore_unsupported true self) bases w in
  tolerant.2.2 = None
  ∧ strict.2.1 `prefix_of` tolerant.2.1
  ∧ (strict.2.2 = None → strict = tolerant).
Proof.
  revert w. induction bases as [|base bases IH]; intros w; simpl.
  { repeat split; done. }
  destruct (iter_versions_round_modes self base w) as [Hw Hcase]. simpl in Hw, Hcase.
  destruct (_iter_versions_round env (with_ignore_unsupported false self) base w)
    as [ws rs].
  destruct (_iter_versions_round env (with_ignore_unsupported true self) base w)
    as [wt rt].
  simpl in Hw, Hcase. subst wt.
  destruct Hcase as [[<- Hnr]|[[e ->] ->]].
  - destruct rs as [it| |e]; [| |by destruct (Hnr e)].
    + destruct (IH ws) as (Ht & Hp & Heq).
      destruct (_iter_versions_from env (with_ignore_unsupported false self) bases ws)
        as [w2 [items e]].
      destruct (_iter_versions_from env (with_ignore_unsupported true self) bases ws)
        as [w2' [items' e']].
      simpl in *. split; [done|]. split.
      * by apply prefix_cons.
      * intros He. specialize (Heq He). by simplify_eq.
    + apply IH.
  - destruct (IH ws) as (Ht & _ & _). split; [done|]. simpl.
    split; [apply prefix_nil|done].
Qed.

(** X26: with [ignore_unsupported] set, [_iter_versions] never raises.
    Without it, it yields what the tolerant run yields up to the first
    candidate that fails, and when no candidate fails the two runs yield
    the same and leave the caches the same. *)
Theorem iter_versions_tolerant_and_strict (self : PythonFinder) (w : World) :
  let strict := _iter_versions env host (with_ignore_unsupported false self) w in
  let tolerant := _iter_versions env host (with_ignore_unsupported true self) w in
  tolerant.2.2 = None
  ∧ strict.2.1 `prefix_of` tolerant.2.1
  ∧ (strict.2.2 = None → strict = tolerant).
Proof. apply iter_versions_from_modes. Qed.

Lemma foldl_insert_nonempty (items : list (Path * RootEntry * version_key))
    (m0 : gmap version_key RootEntry) :
  items ≠ [] ∨ m0 ≠ ∅ →
  foldl (λ m '(_, entry', version_tuple'), <[version_tuple' := entry']> m) m0 items ≠ ∅.
Proof.
  revert m0. induction items as [|[[bp e] k] items IH]; intros m0 H; simpl.
  - by destruct H.
  - apply IH. right. apply insert_non_empty.
Qed.

(** X27: a read of [versions] that fails part of the way leaves the cache
    part filled.  When the cache is empty and [_iter_versions] raises after
    it has yielded, the read raises; the next read finds the cache
    non-empty, enumerates nothing, and returns what the failed read had
    stored. *)
Theorem versions_partial_cache (self : PythonFinder) (w : World)
    (items : list (Path * RootEntry * version_key)) (e : exn) :
  _versions self = ∅ →
  (_iter_versions env host self w).2 = (items, Some e) →
  items ≠ [] →
  let out := (versions_property env host self w).2 in
  out.1 = Raise e
  ∧ (∀ k, _versions out.2 !! k
          = (λ it, it.1.2) <$> last (filter (λ it, it.2 = k) items))
  ∧ ∀ w', versions_property env host out.2 w' = (w', (Ok (_versions out.2), out.2)).
Proof.
  intros Hempty Hiter Hne. unfold versions_property.
  rewrite bool_decide_eq_true_2 by done.
  destruct (_iter_versions env host self w) as [w1 [its e']]. simpl in Hiter.
  simplify_eq. simpl. split; [done|]. split.
  - intros k. rewrite foldl_insert_items, Hempty, lookup_empty.
    by destruct (last _).
  - intros w'. rewrite bool_decide_eq_false_2; [done|].
    apply foldl_insert_nonempty. by left.
Qed.

End finder_more.

Lemma iter_versions_tolerant_and_strict_witness :
  (_iter_versions Sample.env Sample.host
     (with_ignore_unsupported true (Sample.finder true)) empty_world).2.2 = None.
Proof.
  exact (proj1 (iter_versions_tolerant_and_strict Sample.env Sample.host
                  (Sample.finder true) empty_world)).
Defined.

Lemma versions_partial_cache_witness :
  (versions_property Sample.env Sample.host (Sample.finder false) empty_world).2.1
  = Raise InvalidPythonVersion.
Proof.
  refine (proj1 (versions_partial_cache Sample.env Sample.host (Sample.finder false)
                   empty_world
                   (_iter_versions Sample.env Sample.host (Sample.finder false)
                      empty_world).2.1
                   InvalidPythonVersion _ _ _)).
  - reflexivity.
  - vm_compute. reflexivity.
  - vm_compute. discriminate.
Defined.

(** *** The finder [create] makes *)

Lemma setitem_fresh (k : Path) (v : RootEntry) (d : list (Path * RootEntry)) :
  k ∉ d.*1 → setitem k v d = (d ++ [(k, v)])%list.
Proof.
  induction d as [|[k' v'] d IH]; simpl; [done|].
  intros [Hne Hn]%not_elem_of_cons.
  rewrite decide_False by done. by rewrite IH.
Qed.

Lemma foldl_setitem_fresh (bases d0 : list (Path * RootEntry)) :
  NoDup (d0.*1 ++ bases.*1) →
  foldl (λ d base, setitem base.1 base.2 d) d0 bases = (d0 ++ bases)%list.
Proof.
  revert d0. induction bases as [|[k v] bases IH]; intros d0 Hnd; simpl.
  { by rewrite app_nil_r. }
  simpl in Hnd. rewrite setitem_fresh.
  - rewrite IH; [by rewrite <- app_assoc|].
    by rewrite fmap_app, <- app_assoc.
  - apply NoDup_app in Hnd as (_ & Hn & _). intros Hk. apply (Hn k Hk). by left.
Qed.

Section created_finder.
Context (env : Env) (host : Host).

Lemma iter_version_bases_keys (self : PythonFinder) :
  (_iter_version_bases host self).*1 `sublist_of` get_version_order host self.
Proof.
  unfold _iter_version_bases.
  induction (get_version_order host self) as [|p l IH]; [done|].
  simpl. destruct (exists_dir host (get_bin_dir host p)); simpl.
  - by constructor.
  - by constructor.
Qed.

(** X28: the finder [create] makes.  Its [paths] are the root entries of
    the bases [_iter_version_bases] offers, in their order; when the
    version order repeats no path, [roots] holds these bases and nothing
    else; and every entry a read of [versions] stores is, by value, one of
    [paths]: the root entry made for the same directory and name. *)
Theorem create_roots_and_paths (root : Path) (version_glob_path : option string)
    (ignore_unsupported is_dir : bool) (w : World) :
  let self := PythonFinder_create host root version_glob_path ignore_unsupported
                is_dir in
  NoDup (get_version_order host self) →
  roots_after host self [] = _iter_version_bases host self
  ∧ paths self = (roots_after host self []).*2
  ∧ ∀ k e, _versions (versions_property env host self w).2.2 !! k = Some e →
           e ∈ paths self.
Proof.
  intros self Hnd.
  assert (Hroots : roots_after host self [] = _iter_version_bases host self).
  { unfold roots_after. rewrite foldl_setitem_fresh; [done|]. simpl.
    eapply sublist_NoDup; [exact Hnd|apply iter_version_bases_keys]. }
  assert (Hpaths : paths self = (_iter_version_bases host self).*2) by reflexivity.
  split; [done|]. split; [by rewrite Hroots|].
  intros k e. unfold versions_property.
  rewrite bool_decide_eq_true_2 by reflexivity.
  pose proof (iter_versions_from_sublist env self (_iter_version_bases host self) w)
    as Hs.
  fold (_iter_versions env host self w) in Hs.
  destruct (_iter_versions env host self w) as [w1 [items x]]. simpl in *.
  rewrite foldl_insert_items.
  destruct (last (filter (λ it, it.2 = k) items)) as [it|] eqn:Hlast; [|done].
  intros [= <-]. rewrite Hpaths.
  apply list_elem_of_fmap. exists it.1. split; [done|].
  eapply elem_of_sublist; [|exact Hs].
  apply list_elem_of_fmap. exists it. split; [done|].
  apply last_Some in Hlast as [l' Hl'].
  assert (it ∈ filter (λ it, it.2 = k) items) as Hin.
  { rewrite Hl'. apply elem_of_app. right. by left. }
  by apply list_elem_of_filter in Hin as [_ ?].
Qed.

End created_finder.

Lemma create_roots_and_paths_witness :
  roots_after Sample.host (Cases.created false) []
  = _iter_version_bases Sample.host (Cases.created false).
Proof.
  refine (proj1 (create_roots_and_paths Sample.env Sample.host ["opt"; "pyenv"] None
                   false true empty_world _)).
  refine (bool_decide_unpack (NoDup _) _). vm_compute. exact I.
Defined.

(** X30: [which] answers with the hit of the first of [paths] that has
    one, and with nothing only when none of them has. *)
Theorem which_first_hit (entry_which : RootEntry → string → option PathEntry)
    (self : PythonFinder) (name : string) :
  match which entry_which self name with
  | Some m =>
      ∃ before p after,
        paths self = (before ++ p :: after)%list
        ∧ entry_which p name = Some m
        ∧ ∀ p', p' ∈ before → entry_which p' name = None
  | None => ∀ p, p ∈ paths self → entry_which p name = None
  end.
Proof.
  unfold which. induction (paths self) as [|p l IH]; simpl.
  - by intros p ?%elem_of_nil.
  - destruct (entry_which p name) as [m|] eqn:Hp; simpl.
    + exists [], p, l. repeat split; [done|]. by intros p' ?%elem_of_nil.
    + simpl in IH. destruct (head _) as [m|].
      * destruct IH as (before & p0 & after & -> & Hm & Hb).
        exists (p :: before), p0, after. repeat split; [done|].
        intros p' [->|?]%elem_of_cons; auto.
      * intros p' [->|?]%elem_of_cons; auto.
Qed.

Lemma which_first_hit_witness :
  ∃ before p after,
    paths (Cases.created true) = (before ++ p :: after)%list
    ∧ entry_name (entry p) = "system"
    ∧ ∀ p', p' ∈ before → Cases.entry_which p' "pip" = None.
Proof.
  pose proof (which_first_hit Cases.entry_which (Cases.created true) "pip") as H.
  destruct (which Cases.entry_which (Cases.created true) "pip") as [m|] eqn:Hm;
    [|exfalso; vm_compute in Hm; discriminate Hm].
  destruct H as (before & p & after & Hpaths & Hp & Hb).
  exists before, p, after. repeat split; [done| |done].
  unfold Cases.entry_which in Hp. simpl in Hp.
  case_bool_decide; [done|]. by simpl in Hp.
Defined.

(** ** The properties and methods as they run *)

Lemma patch_or_zero (p : option Z) :
  (if truthy_int p then default 0 p else 0) = default 0 p.
Proof. destruct p as [z|]; simpl; [|done]. by case_bool_decide; subst. Qed.

Lemma key_lt_neither (a b : sort_key) :
  key_lt a b = Ok false → key_lt b a = Ok false → a = b.
Proof. intros H1 H2. key_cases; repeat f_equal; lia. Qed.


Section settled_facts.
Context (env : Env).

(** On a settled instance a read of [minor] or [patch] returns what is
    stored and touches nothing. *)
Lemma getattribute_settled (key : lazy_field) (self : PythonVersion) (w : World) :
  settled self →
  __getattribute__ env key self w = (w, Ok (stored key self, self)).
Proof.
  intros [Hm Hp]. unfold __getattribute__.
  destruct (stored key self) as [z|] eqn:Hs; [done|].
  assert (known_executable self = None) as ->; [|done].
  destruct key; simpl in Hs; [destruct Hm as [[? ?]|?]|destruct Hp as [[? ?]|?]];
    congruence.
Qed.

Lemma version_sort_property_settled (self : PythonVersion) (w : World) :
  settled self →
  version_sort_property env self w = (w, Ok (version_sort self, self)).
Proof.
  intros Hs. unfold version_sort_property.
  by rewrite !getattribute_settled.
Qed.

Lemma version_tuple_property_settled (self : PythonVersion) (w : World) :
  settled self →
  version_tuple_property env self w = (w, Ok (version_tuple self, self)).
Proof.
  intros Hs. unfold version_tuple_property.
  by rewrite !getattribute_settled.
Qed.

Lemma as_dict_call_settled (self : PythonVersion) (w : World) :
  settled self →
  as_dict_call env self w = (w, Ok (as_dict self, self)).
Proof.
  intros Hs. unfold as_dict_call. rewrite !getattribute_settled by done.
  assert (H : <["major" := VInt (major self)]>
                (<["minor" := of_int (stored Minor self)]>
                (<["patch" := of_int (stored Patch self)]> (as_dict self)))
              = as_dict self); [|by rewrite H].
  unfold as_dict. simpl.
  apply map_eq. intros k.
  destruct (decide (k = "major")) as [->|?]; [by rewrite !lookup_insert_eq|].
  rewrite (lookup_insert_ne _ "major") by done.
  destruct (decide (k = "minor")) as [->|?].
  { by rewrite lookup_insert_eq, (lookup_insert_ne _ "major"), lookup_insert_eq. }
  rewrite (lookup_insert_ne _ "minor") by done.
  destruct (decide (k = "patch")) as [->|?].
  { rewrite lookup_insert_eq, (lookup_insert_ne _ "major"),
      (lookup_insert_ne _ "minor"), lookup_insert_eq by done. done. }
  by rewrite (lookup_insert_ne _ "patch") by done.
Qed.

Lemma settled_get_architecture (self : PythonVersion) :
  settled self → settled (get_architecture env self).2.
Proof.
  unfold get_architecture. destruct (truthy_str (architecture self)); [done|].
  done.
Qed.

Lemma get_architecture_fields (self : PythonVersion) :
  let self' := (get_architecture env self).2 in
  major self' = major self ∧ minor self' = minor self ∧ patch self' = patch self
  ∧ is_prerelease self' = is_prerelease self
  ∧ is_devrelease self' = is_devrelease self
  ∧ is_debug self' = is_debug self ∧ name self' = name self.
Proof.
  unfold get_architecture. by destruct (truthy_str (architecture self)).
Qed.

(** A clause of [matches] that asks nothing of the field, or asks it of
    an instance that has it stored or knows no executable, reads nothing
    through a probe. *)
Lemma asks_read_stored (key : lazy_field) (wanted : option Z) (self : PythonVersion)
    (w : World) :
  wanted = None ∨ is_Some (stored key self) ∨ known_executable self = None →
  asks_read env key wanted self w
  = (w, Ok (bool_decide (wanted = None) || bool_decide (stored key self = wanted), self)).
Proof.
  intros H. unfold asks_read. destruct wanted as [z|]; [|done].
  unfold __getattribute__.
  destruct (stored key self) as [z'|] eqn:Hs; [done|].
  destruct H as [[=]|[[? [=]]| ->]]. done.
Qed.

(** Where [matches] reads [minor] and [patch] without a probe, it answers
    from the stored values and changes nothing but the [architecture] it
    may store. *)
Lemma matches_call_stored (self : PythonVersion) (p : predicate) (w : World) :
  p_minor p = None ∨ is_Some (minor self) ∨ known_executable self = None →
  p_patch p = None ∨ is_Some (patch self) ∨ known_executable self = None →
  matches_call env self p w
  = (w, let! b := matches env self p in
        Ok (b, if truthy_str (p_arch p) then (get_architecture env self).2 else self)).
Proof.
  intros Hminor Hpatch. unfold matches_call, matches.
  assert (Hexe : known_executable (get_architecture env self).2 = known_executable self).
  { unfold get_architecture. by destruct (truthy_str (architecture self)). }
  destruct (get_architecture_fields self) as (HM & Hm & Hp & Hpre & Hdev & Hdbg & Hnm).
  destruct (truthy_str (p_arch p)) eqn:Ha.
  - set (self' := (get_architecture env self).2) in *.
    rewrite (asks_read_stored Minor) by (simpl; rewrite Hm, Hexe; exact Hminor).
    destruct (bool_decide (p_major p = None) || bool_decide (Some (major self') = p_major p))
      eqn:HbM; rewrite HM in HbM; rewrite HbM; simpl; [|done].
    rewrite Hm.
    destruct (bool_decide (p_minor p = None) || bool_decide (minor self = p_minor p));
      simpl; [|done].
    rewrite (asks_read_stored Patch) by (simpl; rewrite Hp, Hexe; exact Hpatch).
    simpl. rewrite Hp, Hpre, Hdev, Hdbg, Hnm.
    destruct (bool_decide (p_patch p = None) || bool_decide (patch self = p_patch p));
      simpl; [|done].
    destruct (_ && _); [|done].
    by destruct (p_arch p).
  - rewrite (asks_read_stored Minor) by exact Hminor.
    destruct (bool_decide (p_major p = None) || bool_decide (Some (major self) = p_major p));
      simpl; [|done].
    destruct (bool_decide (p_minor p = None) || bool_decide (minor self = p_minor p));
      simpl; [|done].
    rewrite (asks_read_stored Patch) by exact Hpatch. simpl.
    destruct (bool_decide (p_patch p = None) || bool_decide (patch self = p_patch p));
      simpl; [|done].
    destruct (_ && _); [|done].
    by destruct (p_arch p).
Qed.

(** On a settled instance [matches] answers from the stored values. *)
Lemma matches_call_settled (self : PythonVersion) (p : predicate) (w : World) :
  settled self →
  matches_call env self p w
  = (w, let! b := matches env self p in
        Ok (b, if truthy_str (p_arch p) then (get_architecture env self).2 else self)).
Proof.
  intros [Hm Hp]. apply matches_call_stored; right; tauto.
Qed.

(** Asked for its own version tuple, an instance is read without a probe
    and answers yes. *)
Lemma matches_call_own_tuple (self : PythonVersion) (w : World) :
  matches_call env self (own_tuple self) w = (w, Ok (true, self)).
Proof.
  rewrite matches_call_stored.
  - unfold matches, own_tuple. simpl.
    destruct (minor self), (patch self); simpl;
      rewrite ?(bool_decide_eq_true_2 (_ = _)) by done; done.
  - simpl. destruct (minor self); eauto.
  - simpl. destruct (patch self); eauto.
Qed.

(** The key the property returns has the company rank, the [major] and
    the release rank of the instance as it was before the read. *)
Lemma version_sort_property_key (self self' : PythonVersion) (w w' : World)
    (k : sort_key) :
  version_sort_property env self w = (w', Ok (k, self')) →
  k.1.1.1.1 = (version_sort self).1.1.1.1
  ∧ k.1.1.1.2 = major self
  ∧ k.2 = (version_sort self).2.
Proof.
  unfold version_sort_property, version_sort.
  destruct (__getattribute__ env Minor self w) as [w1 [[m self1]|e]]; [|done].
  destruct (__getattribute__ env Patch self1 w1) as [w2 [[p self2]|e]]; [|done].
  by intros [= <- <- <-].
Qed.



(** X1: whenever [version_sort] returns for a version of company
    [PythonCore] and for a version of another or of no company, the first
    key is above the second, whatever the version numbers are, and the
    comparison of the two keys does not raise. *)
Theorem version_sort_core_first (v1 v2 v1' v2' : PythonVersion)
    (w1 w1' w2 w2' : World) (s1 s2 : sort_key) :
  version_sort_property env v1 w1 = (w1', Ok (s1, v1')) →
  version_sort_property env v2 w2 = (w2', Ok (s2, v2')) →
  company v1 = Some "PythonCore" →
  company v2 ≠ Some "PythonCore" →
  key_lt s2 s1 = Ok true ∧ key_lt s1 s2 = Ok false.
Proof.
  intros H1 H2 Hc1 Hc2.
  apply version_sort_property_key in H1 as (Hk1 & _ & _).
  apply version_sort_property_key in H2 as (Hk2 & _ & _).
  unfold version_sort in Hk1, Hk2. simpl in Hk1, Hk2.
  rewrite Hc1 in Hk1. simpl in Hk1.
  rewrite (bool_decide_eq_false_2 (company v2 = _)), andb_false_r in Hk2 by done.
  destruct s1 as [[[[c1 M1] m1] p1] r1], s2 as [[[[c2 M2] m2] p2] r2].
  simpl in *. subst c1 c2. split; reflexivity.
Qed.

(** X2: within one company the version number decides before the release
    kind does.  Whenever [version_sort] returns for two versions of the
    same company, a lower major, or the same major and a lower minor, or
    the same major and minor and a lower patch (or 0) among the numbers
    the property read puts the first key below the second, whatever the
    flags are. *)
Theorem version_sort_number_before_kind (v1 v2 v1' v2' : PythonVersion)
    (w1 w1' w2 w2' : World) (s1 s2 : sort_key)
    (M1 M2 : Z) (m1 m2 : option Z) (p1 p2 : Z) :
  version_sort_property env v1 w1 = (w1', Ok (s1, v1')) →
  version_sort_property env v2 w2 = (w2', Ok (s2, v2')) →
  company v1 = company v2 →
  numbers s1 = (M1, m1, p1) →
  numbers s2 = (M2, m2, p2) →
  M1 < M2
  ∨ (M1 = M2 ∧ ∃ a b, m1 = Some a ∧ m2 = Some b ∧ a < b)
  ∨ (M1 = M2 ∧ m1 = m2 ∧ p1 < p2) →
  M1 = major v1 ∧ M2 = major v2 ∧ key_lt s1 s2 = Ok true.
Proof.
  intros H1 H2 Hc Hn1 Hn2 Hlt.
  apply version_sort_property_key in H1 as (Hk1 & HM1 & _).
  apply version_sort_property_key in H2 as (Hk2 & HM2 & _).
  unfold version_sort in Hk1, Hk2. simpl in Hk1, Hk2. rewrite Hc in Hk1.
  destruct s1 as [[[[c1 M1'] m1'] p1'] r1], s2 as [[[[c2 M2'] m2'] p2'] r2].
  unfold numbers in Hn1, Hn2. simpl in *. simplify_eq.
  split; [done|]. split; [done|].
  set (c := if _ && _ then 1 else 0). clearbody c.
  unfold key_lt. rewrite (bool_decide_eq_true_2 (c = c)) by done. simpl.
  destruct Hlt as [Hlt|[(HM & a & b & Ha & Hb & Hlt)|(HM & Hm & Hlt)]].
  - rewrite (bool_decide_eq_false_2 (major v1 = _)) by lia. simpl.
    by rewrite bool_decide_eq_true_2.
  - rewrite HM, Ha, Hb, (bool_decide_eq_true_2 (major v2 = _)) by done. simpl.
    rewrite (bool_decide_eq_false_2 (Some a = _)) by (intros [= ?]; lia). simpl.
    by rewrite bool_decide_eq_true_2.
  - rewrite HM, Hm, (bool_decide_eq_true_2 (major v2 = _)),
      (bool_decide_eq_true_2 (m2 = _)) by done. simpl.
    rewrite (bool_decide_eq_false_2 (p1 = _)) by lia. simpl.
    by rewrite bool_decide_eq_true_2.
Qed.

(** X3: for two settled versions that have their [minor], [version_sort]
    returns without a probe, the two keys can be compared, and exactly one
    of three cases holds: the first is below the second, the second below
    the first, or the keys are equal. *)
Theorem version_sort_trichotomy (v1 v2 : PythonVersion) (w1 w2 : World) :
  settled v1 → is_Some (minor v1) →
  settled v2 → is_Some (minor v2) →
  ∃ s1 s2 below above,
    version_sort_property env v1 w1 = (w1, Ok (s1, v1))
    ∧ version_sort_property env v2 w2 = (w2, Ok (s2, v2))
    ∧ key_lt s1 s2 = Ok below
    ∧ key_lt s2 s1 = Ok above
    ∧ (below = true ∧ above = false
       ∨ below = false ∧ above = true
       ∨ below = false ∧ above = false ∧ s1 = s2).
Proof.
  intros Hs1 H1 Hs2 H2.
  exists (version_sort v1), (version_sort v2).
  destruct (key_lt_total (version_sort v1) (version_sort v2) H1 H2) as [below Hb].
  destruct (key_lt_total (version_sort v2) (version_sort v1) H2 H1) as [above Ha].
  exists below, above. rewrite !version_sort_property_settled by done.
  do 4 (split; [done|]).
  destruct below.
  - left. split; [done|]. apply key_lt_asym in Hb. congruence.
  - destruct above; [by right; left|].
    right. right. repeat split. by apply key_lt_neither.
Qed.

(** X4: on settled versions of the same company and post-release flag,
    [version_sort] returns the same key for a version without [patch] as
    for the same version with patch 0, and the same key for two versions
    for which [version_tuple] returns the same tuple: versions filed under
    one tuple differ in their sort keys only through their company or
    their post-release flag. *)
Theorem version_sort_of_version_tuple (v1 v2 : PythonVersion) (w1 w2 : World) :
  settled v1 → settled v2 →
  company v1 = company v2 →
  is_postrelease v1 = is_postrelease v2 →
  (major v1, minor v1, default 0 (patch v1)) = (major v2, minor v2, default 0 (patch v2))
  ∧ (is_prerelease v1, is_devrelease v1, is_debug v1)
    = (is_prerelease v2, is_devrelease v2, is_debug v2)
  ∨ (∃ t, version_tuple_property env v1 w1 = (w1, Ok (t, v1))
          ∧ version_tuple_property env v2 w2 = (w2, Ok (t, v2))) →
  ∃ k, version_sort_property env v1 w1 = (w1, Ok (k, v1))
       ∧ version_sort_property env v2 w2 = (w2, Ok (k, v2)).
Proof.
  intros Hs1 Hs2 Hc Hp H. exists (version_sort v1).
  rewrite !version_sort_property_settled by done. split; [done|].
  do 3 f_equal. symmetry.
  unfold version_sort. rewrite !patch_or_zero, Hc, Hp.
  destruct H as [[[= -> -> ->] [= -> -> ->]]|(t & Ht1 & Ht2)]; [done|].
  rewrite version_tuple_property_settled in Ht1, Ht2 by done.
  assert (Ht : version_tuple v1 = version_tuple v2) by congruence.
  unfold version_tuple in Ht.
  injection Ht as HM Hm Hpt Hpre Hdev Hdbg.
  by rewrite HM, Hm, Hpt, Hpre, Hdev, Hdbg.
Qed.

End settled_facts.


Lemma version_sort_core_first_witness :
  key_lt (0, 3, Some 9, 1, 3) (1, 3, Some 9, 0, 0) = Ok true
  ∧ key_lt (1, 3, Some 9, 0, 0) (0, 3, Some 9, 1, 3) = Ok false.
Proof.
  refine (version_sort_core_first Sample.env Cases.core39 Cases.unresolved
            Cases.core39
            (setattrs (Sample.fields 3 9 1 false "3.9.1") Cases.unresolved)
            empty_world empty_world empty_world
            (version_sort_property Sample.env Cases.unresolved empty_world).1
            (1, 3, Some 9, 0, 0) (0, 3, Some 9, 1, 3) _ _ _ _);
    [vm_compute; reflexivity|vm_compute; reflexivity|reflexivity|discriminate].
Defined.

Lemma version_sort_number_before_kind_witness :
  key_lt (0, 3, Some 9, 0, 3) (0, 3, Some 9, 1, 3) = Ok true.
Proof.
  refine (proj2 (proj2 (version_sort_number_before_kind Sample.env
            (Sample.release 3 9 0 true "3.9.0.post1" "/a") Cases.unresolved
            (Sample.release 3 9 0 true "3.9.0.post1" "/a")
            (setattrs (Sample.fields 3 9 1 false "3.9.1") Cases.unresolved)
            empty_world empty_world empty_world
            (version_sort_property Sample.env Cases.unresolved empty_world).1
            (0, 3, Some 9, 0, 3) (0, 3, Some 9, 1, 3)
            3 3 (Some 9) (Some 9) 0 1 _ _ _ _ _ _)));
    try (vm_compute; reflexivity).
  right. right. repeat split.
Defined.

Lemma version_sort_trichotomy_witness :
  ∃ s1 s2 below above,
    version_sort_property Sample.env Cases.core39 empty_world
    = (empty_world, Ok (s1, Cases.core39))
    ∧ version_sort_property Sample.env Cases.no_patch empty_world
      = (empty_world, Ok (s2, Cases.no_patch))
    ∧ key_lt s1 s2 = Ok below
    ∧ key_lt s2 s1 = Ok above
    ∧ (below = true ∧ above = false
       ∨ below = false ∧ above = true
       ∨ below = false ∧ above = false ∧ s1 = s2).
Proof.
  apply (version_sort_trichotomy Sample.env Cases.core39 Cases.no_patch
           empty_world empty_world).
  - refine (bool_decide_unpack (settled _) _). vm_compute. exact I.
  - by eexists.
  - refine (bool_decide_unpack (settled _) _). vm_compute. exact I.
  - by eexists.
Defined.

Lemma version_sort_of_version_tuple_witness :
  ∃ k, version_sort_property Sample.env Cases.no_patch empty_world
       = (empty_world, Ok (k, Cases.no_patch))
       ∧ version_sort_property Sample.env
           (Sample.release 3 9 0 false "3.9.0" "/opt/python3.9") empty_world
         = (empty_world, Ok (k, Sample.release 3 9 0 false "3.9.0" "/opt/python3.9")).
Proof.
  apply (version_sort_of_version_tuple Sample.env Cases.no_patch
           (Sample.release 3 9 0 false "3.9.0" "/opt/python3.9")
           empty_world empty_world).
  - refine (bool_decide_unpack (settled _) _). vm_compute. exact I.
  - refine (bool_decide_unpack (settled _) _). vm_compute. exact I.
  - reflexivity.
  - reflexivity.
  - left. split; reflexivity.
Defined.

Section calls.
Context (env : Env).

(** From the stored values [matches] answers yes exactly when each part
    of the predicate is met. *)
Lemma matches_true (self : PythonVersion) (p : predicate) :
  matches env self p = Ok true
  ↔ asks_numbers self p = true ∧ asks_arch env self p
    ∧ asks_debug self p = true ∧ asks_name self p = true.
Proof.
  unfold matches, asks_arch. fold (asks_numbers self p) (asks_debug self p) (asks_name self p).
  destruct (p_arch p) as [a|]; simpl.
  - case_bool_decide as Ha; simpl.
    + subst a. destruct (asks_numbers self p); simpl; intuition congruence.
    + destruct (asks_numbers self p); simpl; [|intuition congruence].
      case_bool_decide as Ho; simpl.
      * split; [intros [= H]|intros (_ & _ & -> & ->); done].
        apply andb_prop in H as [? ?]. done.
      * intuition congruence.
  - destruct (asks_numbers self p); simpl; [|intuition congruence].
    split; [intros [= H]|intros (_ & _ & -> & ->); done].
    apply andb_prop in H as [? ?]. done.
Qed.

Lemma asks_relaxed {A} `{EqDecision A} (own wanted wanted' : option A) :
  wanted' = None ∨ wanted' = wanted →
  bool_decide (wanted = None) || bool_decide (own = wanted) = true →
  bool_decide (wanted' = None) || bool_decide (own = wanted') = true.
Proof. by intros [-> | ->]. Qed.

Lemma matches_relaxed_stored (self : PythonVersion) (p p' : predicate) :
  relaxes p' p →
  matches env self p = Ok true →
  matches env self p' = Ok true.
Proof.
  intros (HM & Hm & Hp & Hpre & Hdev & Harch & Hdbg & Hname).
  rewrite !matches_true. intros (Hn & Ha & Hd & Hnm).
  unfold asks_numbers in Hn. repeat (apply andb_prop in Hn as [Hn ?]).
  split; [|split; [|split]].
  - unfold asks_numbers. repeat (apply andb_true_intro; split);
      eapply asks_relaxed; eauto.
  - unfold asks_arch in *. by destruct Harch as [-> | ->].
  - unfold asks_debug in *. eapply asks_relaxed; eauto.
  - unfold asks_name in *. by destruct Hname as [-> | ->].
Qed.

(** X7: on a settled instance the unset fields of a predicate are
    wildcards.  If [matches] answers yes to a predicate, it answers yes
    to every predicate that asks no more (one whose fields are each unset
    or as in the first), and neither call probes.  On an instance that is
    not settled this fails ([matches_relaxed_unsettled]). *)
Theorem matches_relaxed (self s : PythonVersion) (p p' : predicate) (w w1 : World) :
  settled self →
  relaxes p' p →
  matches_call env self p w = (w1, Ok (true, s)) →
  w1 = w ∧ ∃ s', matches_call env self p' w = (w, Ok (true, s')).
Proof.
  intros Hs Hrel Hm. rewrite matches_call_settled in Hm by done.
  destruct (matches env self p) as [b|e] eqn:Hb; simpl in Hm; [|by simplify_eq].
  injection Hm as <- -> _. split; [done|].
  rewrite matches_call_settled by done.
  rewrite (matches_relaxed_stored self p p' Hrel Hb). simpl. eauto.
Qed.

(** X9: the values [as_dict] returns are those [version_tuple] returns:
    the six values [_iter_versions] reads off the dictionary are the
    tuple the property gives on the same instance in the same state.  On
    a settled instance the call probes nothing, and the constructor reads
    back what it wrote: a version made from the dictionary has the version
    numbers, flags, [version] and [company] of the instance, and the
    attributes [as_dict] leaves out ([architecture], [comes_from],
    [executable], [name]) unset. *)
Theorem as_dict_round_trip (self : PythonVersion) (w : World) :
  (∀ w' d self',
     as_dict_call env self w = (w', Ok (d, self')) →
     ∃ t, version_tuple_property env self w = (w', Ok (t, self'))
          ∧ key_of_dict d = key_of_tuple t)
  ∧ (settled self →
     ∃ d, as_dict_call env self w = (w, Ok (d, self))
          ∧ of_dict d = Ok (without_origin self)).
Proof.
  split.
  - intros w' d self'. unfold as_dict_call, version_tuple_property.
    destruct (__getattribute__ env Minor self w) as [w1 [[m self1]|e]]; [|done].
    destruct (__getattribute__ env Patch self1 w1) as [w2 [[p self2]|e]]; [|done].
    intros [= <- <- <-]. eexists. split; [done|].
    unfold key_of_dict, dict_get, as_dict. simpl.
    rewrite lookup_insert_eq.
    rewrite (lookup_insert_ne _ "major" "minor"), lookup_insert_eq by done.
    rewrite (lookup_insert_ne _ "major" "patch"), (lookup_insert_ne _ "minor" "patch"),
      lookup_insert_eq by done.
    reflexivity.
  - intros Hs. exists (as_dict self). split; [by apply as_dict_call_settled|].
    destruct self as [M m p pre post dev dbg ver arch cf exe co nm].
    unfold of_dict. rewrite bool_decide_eq_true_2.
    + f_equal. unfold setattrs, as_dict, without_origin. simpl.
      destruct m, p, ver, co; reflexivity.
    + unfold as_dict. simpl. rewrite !dom_insert_L, dom_empty_L.
      refine (bool_decide_unpack _ _). vm_compute. exact I.
Qed.

(** C6, as the code has it.  A field that is set is returned as stored,
    with no probe.  A read of an unset field of an instance with a known
    executable calls [parse_executable] on that path, which runs the probe
    unless the path is in its cache.  When the read returns a value for
    the field, the instance is left with the fields of the result stored
    on it, this field among them, and every later read of the field, in
    whatever state, returns the stored value and changes nothing: no
    probe, no cache access.  When the probe fails, the read raises
    [ValueError] after logging the probe and stores nothing on the
    instance or in a cache, so that the next read probes and raises
    again. *)
Theorem lazy_read_caches_success_only (key : lazy_field) (self : PythonVersion) (w : World) :
  (∀ z, stored key self = Some z →
        __getattribute__ env key self w = (w, Ok (Some z, self)))
  ∧ (∀ exe,
        stored key self = None →
        known_executable self = Some exe →
        __getattribute__ env key self w
        = (match parse_executable env exe w with
           | (w', Ok r) =>
               (w', Ok (as_int (dict_get (deref w' r) (field_name key)),
                        setattrs (deref w' r) self))
           | (w', Raise e) => (w', Raise e)
           end)
        ∧ probes (__getattribute__ env key self w).1
          = if lru_lookup exe (exe_cache w) is Some _ then probes w
            else (probes w ++ [exe])%list)
  ∧ (∀ z self' w',
        __getattribute__ env key self w = (w', Ok (Some z, self')) →
        stored key self' = Some z
        ∧ (stored key self = None →
           ∃ exe r, known_executable self = Some exe
                    ∧ parse_executable env exe w = (w', Ok r)
                    ∧ self' = setattrs (deref w' r) self)
        ∧ ∀ w'', __getattribute__ env key self' w'' = (w'', Ok (Some z, self')))
  ∧ (∀ exe,
        stored key self = None →
        known_executable self = Some exe →
        lru_lookup exe (exe_cache w) = None →
        (∀ s, get_python_version env exe ≠ Ok (Some s)) →
        __getattribute__ env key self w = (log_probe exe w, Raise ValueError)
        ∧ __getattribute__ env key self (log_probe exe w)
          = (log_probe exe (log_probe exe w), Raise ValueError)).
Proof.
  split; [|split; [|split]].
  - intros z. apply getattribute_stored.
  - intros exe Hs Hexe. split; [|by apply getattribute_probes].
    unfold __getattribute__. rewrite Hs, Hexe.
    by destruct (parse_executable env exe w) as [w' [r|e]].
  - intros z self' w' Hget.
    assert (Hst : stored key self' = Some z).
    { unfold __getattribute__ in Hget.
      destruct (stored key self) as [z0|] eqn:Hs; [by simplify_eq|].
      destruct (known_executable self) as [exe|]; [|by simplify_eq].
      destruct (parse_executable env exe w) as [w1 [r|e]]; [|by simplify_eq].
      simplify_eq. by apply stored_setattrs. }
    split; [done|]. split.
    + intros Hs. unfold __getattribute__ in Hget. rewrite Hs in Hget.
      destruct (known_executable self) as [exe|]; [|by simplify_eq].
      destruct (parse_executable env exe w) as [w1 [r|e]] eqn:Hpe; [|by simplify_eq].
      simplify_eq. eauto.
    + intros w''. by apply getattribute_stored.
  - intros exe Hs Hexe Hl Hp. unfold __getattribute__. rewrite Hs, Hexe.
    rewrite !parse_executable_probe_fails by done. done.
Qed.

End calls.

(** On an instance that is not settled a predicate that asks less can be
    answered no where the one that asks more is answered yes: the read of
    [minor] probes the executable, which reports a release, and the flag
    [is_prerelease] the instance had is overwritten before it is read. *)
Lemma matches_relaxed_unsettled :
  relaxes Cases.final Cases.minor9_final
  ∧ ¬ settled Cases.stale_pre
  ∧ (let! r := (matches_call Sample.env Cases.stale_pre Cases.minor9_final
                  empty_world).2 in Ok r.1) = Ok true
  ∧ (let! r := (matches_call Sample.env Cases.stale_pre Cases.final
                  empty_world).2 in Ok r.1) = Ok false.
Proof.
  split; [|split; [|split]]; try (vm_compute; reflexivity).
  - unfold relaxes. simpl. repeat split; (by left) || (by right).
  - intros [[[? [=]]|[=]] _].
Qed.

Lemma matches_relaxed_witness :
  ∃ s', matches_call Sample.env Cases.conda311 Cases.any_name empty_world
        = (empty_world, Ok (true, s')).
Proof.
  refine (proj2 (matches_relaxed Sample.env Cases.conda311 Cases.conda311
                   Cases.by_name Cases.any_name empty_world empty_world _ _ _)).
  - refine (bool_decide_unpack (settled _) _). vm_compute. exact I.
  - unfold relaxes. simpl. repeat split; (by left) || (by right).
  - vm_compute. reflexivity.
Defined.

Lemma as_dict_round_trip_witness :
  ∃ d, as_dict_call Sample.env Cases.core39 empty_world
       = (empty_world, Ok (d, Cases.core39))
       ∧ of_dict d = Ok (without_origin Cases.core39).
Proof.
  apply (proj2 (as_dict_round_trip Sample.env Cases.core39 empty_world)).
  refine (bool_decide_unpack (settled _) _). vm_compute. exact I.
Defined.

Lemma lazy_read_caches_success_only_witness :
  let probed := setattrs (Sample.fields 3 9 1 false "3.9.1") Cases.unresolved in
  __getattribute__ Sample.env Patch Sample.broken empty_world
  = (log_probe "/opt/broken/bin/python" empty_world, Raise ValueError)
  ∧ stored Minor probed = Some 9
  ∧ ∀ w, __getattribute__ Sample.env Minor probed w = (w, Ok (Some 9, probed)).
Proof.
  intros probed. split.
  - assert (Hp : ∀ s, get_python_version Sample.env "/opt/broken/bin/python" ≠ Ok (Some s)).
    { intros s. vm_compute. discriminate. }
    exact (proj1 (proj2 (proj2 (proj2 (lazy_read_caches_success_only
                                         Sample.env Patch Sample.broken empty_world)))
                   "/opt/broken/bin/python" eq_refl eq_refl eq_refl Hp)).
  - destruct (proj1 (proj2 (proj2 (lazy_read_caches_success_only
                                     Sample.env Minor Cases.unresolved empty_world)))
                9 probed
                (__getattribute__ Sample.env Minor Cases.unresolved empty_world).1)
      as (Hst & _ & Hnext).
    + vm_compute. reflexivity.
    + split; [exact Hst|exact Hnext].
Defined.

Section metadata_more.
Context (env : Env).

Lemma method_names_not_fields (k : string) :
  k ∈ method_names → (k ∉ attribute_names) ∧ (k ∉ property_names).
Proof.
  unfold method_names. rewrite !elem_of_cons, elem_of_nil.
  intros H. repeat (destruct H as [->|H]; [split; intros Hin;
    apply (bool_decide_pack _) in Hin; vm_compute in Hin; exact Hin|]).
  done.
Qed.

(** X17: [update_metadata] on metadata each of whose keys names a field
    of the class or no attribute at all, and an instance whose [minor]
    and [patch] are set as far as the metadata names them: every field the
    metadata names is set to its value, the other keys are passed over,
    nothing is probed and the caches are left alone; the order of the
    keys makes no difference.  A key that names a method of the class
    makes the call raise [AttributeError]. *)
Theorem update_metadata_resolved (metadata : list (string * pyval))
    (self : PythonVersion) (w : World) :
  (NoDup metadata.*1 →
   (∀ key, field_name key ∈ metadata.*1 → is_Some (stored key self)) →
   (∀ k, k ∈ metadata.*1 →
         k ∈ attribute_names
         ∨ ((k ∉ property_names) ∧ (k ∉ method_names) ∧ other_attribute env k = None)) →
   update_metadata env metadata self w
   = (w, Ok (setattrs (list_to_map metadata) self)))
  ∧ (∀ k v rest, metadata = (k, v) :: rest → k ∈ method_names →
       update_metadata env metadata self w = (w, Raise AttributeError)).
Proof.
  split.
  - revert self. induction metadata as [|[k v] md IH]; intros self Hnd Hres Hkeys.
    + simpl. do 2 f_equal. by destruct self.
    + rewrite fmap_cons in Hnd. apply NoDup_cons in Hnd as [Hk Hnd].
      assert (Hnone : (list_to_map md : dict) !! k = None)
        by by apply not_elem_of_list_to_map_1.
      assert (Hrest : ∀ self', (∀ key, k ≠ field_name key →
                                  stored key self' = stored key self) →
                update_metadata env md self' w
                = (w, Ok (setattrs (list_to_map md) self'))).
      { intros self' Hsame. apply IH; [done| |].
        - intros key Hin. rewrite Hsame; [apply Hres; by right|].
          intros ->. done.
        - intros k' Hk'. apply Hkeys. by right. }
      simpl. case_bool_decide as Hattr.
      * rewrite setattrs_insert by done.
        destruct (lazy_of k) as [key|] eqn:Hlazy.
        -- apply lazy_of_field in Hlazy as ->.
           destruct (Hres key) as [z Hz]; [by left|].
           rewrite (getattribute_stored env key self w z Hz).
           apply Hrest. intros key' Hne. by apply stored_setattrs_other.
        -- apply Hrest. intros key' Hne. by apply stored_setattrs_other.
      * destruct (Hkeys k) as [?|(Hprop & Hmeth & Hother)]; [by left|done|].
        rewrite (bool_decide_eq_false_2 (k ∈ property_names)) by done.
        rewrite (bool_decide_eq_false_2 (k ∈ method_names)) by done.
        rewrite Hother, setattrs_unknown by done. apply IH; [done| |].
        -- intros key Hin. apply Hres. by right.
        -- intros k' Hk'. apply Hkeys. by right.
  - intros k v rest -> Hm. destruct (method_names_not_fields k Hm) as [Hf Hp].
    simpl.
    rewrite (bool_decide_eq_false_2 (k ∈ attribute_names)) by done.
    rewrite (bool_decide_eq_false_2 (k ∈ property_names)) by done.
    by rewrite (bool_decide_eq_true_2 (k ∈ method_names)).
Qed.

End metadata_more.

Lemma update_metadata_resolved_witness :
  update_metadata Sample.env Cases.metadata Cases.core39 empty_world
  = (empty_world, Ok (setattrs (list_to_map Cases.metadata) Cases.core39)).
Proof.
  apply (proj1 (update_metadata_resolved Sample.env Cases.metadata Cases.core39
                  empty_world)).
  - refine (bool_decide_unpack (NoDup _) _). vm_compute. exact I.
  - intros [] _; by eexists.
  - intros k Hk. unfold Cases.metadata in Hk. simpl in Hk.
    rewrite !elem_of_cons, elem_of_nil in Hk.
    destruct Hk as [->|[->|[->|[->|[]]]]].
    + left. refine (bool_decide_unpack (_ ∈ attribute_names) _). vm_compute. exact I.
    + left. refine (bool_decide_unpack (_ ∈ attribute_names) _). vm_compute. exact I.
    + left. refine (bool_decide_unpack (_ ∈ attribute_names) _). vm_compute. exact I.
    + right. split; [|split; [|reflexivity]];
        intros Hin; apply (bool_decide_pack _) in Hin; vm_compute in Hin; exact Hin.
Defined.

(** ** The sort by [version_sort] as it runs *)

Lemma sorted_desc_stable_descending {A} (keyed sorted : list (sort_key * A)) :
  sorted_desc keyed = Ok sorted → stable_descending keyed sorted.
Proof.
  intros H. split; [by eapply sorted_desc_perm|].
  split; [by eapply sorted_desc_sorted|].
  intros k. by apply sorted_desc_stable.
Qed.

Lemma with_version_same (p : PathEntry) (v : PythonVersion) :
  as_python p = Some v → with_version v p = p.
Proof. destruct p. simpl. by intros ->. Qed.

Section sorting_runs.
Context (env : Env).

(** The key function returns the entry for the same location, with a
    version. *)
Lemma keys_of_locations (l : list PathEntry) (w w' : World)
    (keyed : list (sort_key * PathEntry)) :
  keys_of env l w = (w', Ok keyed) →
  Forall2 (λ c kp, same_location c kp.2) l keyed.
Proof.
  revert w keyed. induction l as [|p l IH]; intros w keyed; simpl.
  - intros [= <- <-]. constructor.
  - unfold version_sort_getter.
    destruct (as_python p) as [v|]; [|done].
    destruct (version_sort_property env v w) as [w1 [[k v1]|e]]; [|done].
    destruct (keys_of env l w1) as [w2 [rest|e]] eqn:Hrest; [|done].
    intros [= <- <-]. constructor; [done|]. by eapply IH.
Qed.


(** What [sorted] returns: the entries with the keys read for them, in
    descending order of these keys, those with equal keys in the order
    they came in. *)
Lemma sorted_reverse_spec (l s : list PathEntry) (w w' : World) :
  sorted_reverse env l w = (w', Ok s) →
  ∃ keyed sorted,
    keys_of env l w = (w', Ok keyed)
    ∧ stable_descending keyed sorted
    ∧ s = sorted.*2.
Proof.
  unfold sorted_reverse.
  destruct (keys_of env l w) as [w1 [keyed|e]]; [|done].
  destruct (sorted_desc keyed) as [sorted|e] eqn:Hs; simpl; [|done].
  intros [= <- <-]. exists keyed, sorted.
  split; [done|]. split; [|done]. by apply sorted_desc_stable_descending.
Qed.


End sorting_runs.

(** ** The two searches *)



Section searching.
Context (env : Env) (host : Host).
Context (find_all_in : query → RootEntry → M (list PathEntry))
        (find_in : query → RootEntry → M (option PathEntry)).


(** X29: what [find_python_version] returns.  The finder of each root is
    asked in the order of [roots]; of its answers those that are Python
    executables with a version are sorted by the keys read for them.  A
    location returned is one of them, as the read of its key left it; no
    key read is above its key, and it is the first with this key.
    Nothing is returned only when no answer is a Python executable with a
    version. *)
Theorem find_python_version_best (roots : list (Path * RootEntry)) (q : query)
    (w w' : World) (r : option PathEntry) :
  find_python_version env find_in roots q w = (w', Ok r) →
  ∃ w0 unnested keyed,
    sub_find_first find_in q roots w = (w0, Ok unnested)
    ∧ keys_of env (python_hits unnested) w0 = (w', Ok keyed)
    ∧ Forall2 (λ c kp, same_location c kp.2) (python_hits unnested) keyed
    ∧ match r with
      | Some p =>
          ∃ k, Forall (λ kp, key_lt k kp.1 = Ok false) keyed
               ∧ head (filter (λ kp, kp.1 = k) keyed) = Some (k, p)
      | None => python_hits unnested = []
      end.
Proof.
  unfold find_python_version.
  destruct (sub_find_first find_in q roots w) as [w0 [unnested|e]]; [|done].
  destruct (sorted_reverse env (python_hits unnested) w0) as [w1 [s|e]] eqn:Hs; [|done].
  intros [= <- <-].
  apply sorted_reverse_spec in Hs as (keyed & sorted & Hk & (Hperm & Hsorted & Hstable) & ->).
  exists w0, unnested, keyed.
  pose proof (keys_of_locations env _ _ _ _ Hk) as Hloc.
  do 3 (split; [done|]).
  destruct sorted as [|[k p] sorted]; simpl.
  - apply Permutation_nil_l in Hperm. subst keyed.
    apply Forall2_nil_inv_r in Hloc. done.
  - exists k. split.
    + rewrite <- Hperm. apply StronglySorted_inv in Hsorted as [_ Hall].
      constructor; [apply key_lt_irrefl|]. exact Hall.
    + rewrite <- Hstable, filter_cons_True by done. done.
Qed.

End searching.



Lemma find_python_version_best_witness :
  ∃ w0 unnested keyed,
    sub_find_first Cases.find_in Sample.python39
      (_iter_version_bases Cases.lazy_host Cases.lazy_finder) empty_world
    = (w0, Ok unnested)
    ∧ keys_of Sample.env (python_hits unnested) w0
      = ((find_python_version Sample.env Cases.find_in
            (_iter_version_bases Cases.lazy_host Cases.lazy_finder)
            Sample.python39 empty_world).1, Ok keyed)
    ∧ Forall2 (λ c kp, same_location c kp.2) (python_hits unnested) keyed
    ∧ ∃ k, Forall (λ kp, key_lt k kp.1 = Ok false) keyed
           ∧ head (filter (λ kp, kp.1 = k) keyed) = Some (k, Sample.python390post).
Proof.
  apply (find_python_version_best Sample.env Cases.find_in
           (_iter_version_bases Cases.lazy_host Cases.lazy_finder) Sample.python39
           empty_world _ (Some Sample.python390post)).
  vm_compute. reflexivity.
Defined.

(** ** What [_iter_versions] yields *)

Section yields.
Context (env : Env) (host : Host).

(** A round reads nothing of its base but the path and the entry: what
    the directory of the candidate holds makes no difference to it. *)
Lemma iter_versions_round_found (self : PythonFinder) (base base' : Path * RootEntry)
    (w : World) :
  base.1 = base'.1 → entry base.2 = entry base'.2 →
  match _iter_versions_round env self base w,
        _iter_versions_round env self base' w with
  | (w1, Yielded it), (w1', Yielded it') =>
      w1 = w1' ∧ it.1.1 = it'.1.1 ∧ entry it.1.2 = entry it'.1.2 ∧ it.2 = it'.2
  | (w1, Skipped), (w1', Skipped) => w1 = w1'
  | (w1, Raised e), (w1', Raised e') => w1 = w1' ∧ e = e'
  | _, _ => False
  end.
Proof.
  destruct base as [bp e], base' as [bp' e']. simpl. intros -> He.
  unfold _iter_versions_round. rewrite He.
  destruct (parse env (entry_name (entry e')) w) as [w1 [d|x]]; [done|].
  destruct (is_value_or_invalid x), (ignore_unsupported self); done.
Qed.

Lemma iter_versions_from_found (self : PythonFinder)
    (bases bases' : list (Path * RootEntry)) (w : World) :
  Forall2 (λ b b', b.1 = b'.1 ∧ entry b.2 = entry b'.2) bases bases' →
  let run := _iter_versions_from env self bases w in
  let run' := _iter_versions_from env self bases' w in
  run'.1 = run.1 ∧ run'.2.2 = run.2.2
  ∧ Forall2 (λ it it', it.1.1 = it'.1.1 ∧ entry it.1.2 = entry it'.1.2 ∧ it.2 = it'.2)
            run.2.1 run'.2.1.
Proof.
  intros Hb. revert w. induction Hb as [|b b' bs bs' [Hp He] _ IH]; intros w; simpl.
  { by repeat split. }
  pose proof (iter_versions_round_found self b b' w Hp He) as Hr.
  destruct (_iter_versions_round env self b w) as [w1 [it| |e]],
           (_iter_versions_round env self b' w) as [w1' [it'| |e']]; try done.
  - destruct Hr as (<- & Hit). specialize (IH w1).
    destruct (_iter_versions_from env self bs w1) as [w2 [items x]],
             (_iter_versions_from env self bs' w1) as [w2' [items' x']].
    simpl in *. destruct IH as (-> & -> & IH). repeat split; try done.
    by constructor.
  - subst w1'. apply IH.
  - destruct Hr as [<- <-]. simpl. by repeat split.
Qed.

(** X25: every item [_iter_versions] yields is one of the bases, in their
    order: a listed path whose name and parent name are not [envs] and
    whose [bin] directory is there, with the root entry made for that
    directory.  The version tuple of an item is read off the dictionary
    [parse] returned in this round for the name of the entry, never off
    an executable found inside: what the directories of the candidates
    hold makes no difference to the items, the exception or the state. *)
Theorem iter_versions_yields (self : PythonFinder) (w : World) :
  let run := _iter_versions env host self w in
  run.2.1.*1 `sublist_of` _iter_version_bases host self
  ∧ (∀ p e k, (p, e, k) ∈ run.2.1 →
       p ∈ glob host (root self) (version_glob_path self)
       ∧ path_name p ≠ "envs" ∧ path_name (path_parent p) ≠ "envs"
       ∧ exists_dir host (get_bin_dir host p) = true
       ∧ e = create_entry host (get_bin_dir host p) (path_name p))
  ∧ (∀ base w0 w1 it,
       _iter_versions_round env self base w0 = (w1, Yielded it) →
       ∃ d, parse env (entry_name (entry base.2)) w0 = (w1, Ok d)
            ∧ it = (base.1, base.2, key_of_dict (deref w1 d)))
  ∧ (∀ bases',
       Forall2 (λ b b', b.1 = b'.1 ∧ entry b.2 = entry b'.2)
               (_iter_version_bases host self) bases' →
       let run' := _iter_versions_from env self bases' w in
       run'.1 = run.1 ∧ run'.2.2 = run.2.2
       ∧ Forall2 (λ it it', it.1.1 = it'.1.1 ∧ entry it.1.2 = entry it'.1.2
                            ∧ it.2 = it'.2)
                 run.2.1 run'.2.1).
Proof.
  intros run. unfold run, _iter_versions.
  pose proof (iter_versions_from_sublist env self (_iter_version_bases host self) w)
    as Hs.
  split; [done|]. split; [|split].
  - intros p e k Hin.
    assert (Hb : (p, e) ∈ _iter_version_bases host self).
    { eapply elem_of_sublist; [|exact Hs].
      apply list_elem_of_fmap. by exists (p, e, k). }
    apply iter_version_bases_elem in Hb as (Ho & Hd & He).
    apply get_version_order_elem in Ho as (? & ? & ?). done.
  - intros base w0 w1 it Hr.
    destruct (iter_versions_round_yielded env self base w0 w1 it Hr)
      as (Hb & d & Hp & Hk).
    exists d. split; [done|]. destruct it as [b k]. simpl in *. subst.
    by destruct base.
  - intros bases' Hb. by apply iter_versions_from_found.
Qed.

End yields.

Lemma iter_versions_yields_witness :
  Forall2 (λ it it' : Path * RootEntry * version_key,
             it.1.1 = it'.1.1 ∧ entry it.1.2 = entry it'.1.2 ∧ it.2 = it'.2)
    (_iter_versions Sample.env Sample.host (Cases.created true) empty_world).2.1
    (_iter_versions_from Sample.env (Cases.created true)
       (_iter_version_bases Cases.lazy_host Cases.lazy_finder) empty_world).2.1.
Proof.
  destruct (iter_versions_yields Sample.env Sample.host (Cases.created true)
              empty_world) as (_ & _ & _ & H).
  apply (H (_iter_version_bases Cases.lazy_host Cases.lazy_finder)).
  refine (bool_decide_unpack (Forall2 _ _ _) _). vm_compute. exact I.
Defined.

(** ** The sort on settled entries *)

(** On entries whose versions are settled the key function and [sorted]
    return what the stored values give, and touch nothing. *)
Lemma keys_of_settled (env : Env) (l : list PathEntry) (w : World) :
  Forall (λ p, ∀ v, as_python p = Some v → settled v) l →
  keys_of env l w = (w, with_keys l).
Proof.
  induction 1 as [|p l Hp _ IH]; simpl; [done|].
  unfold version_sort_getter, version_sort_of.
  destruct (as_python p) as [v|] eqn:Hv; simpl; [|done].
  rewrite version_sort_property_settled by by apply Hp.
  rewrite IH, with_version_same by done.
  by destruct (with_keys l).
Qed.

Lemma sorted_reverse_settled (env : Env) (l : list PathEntry) (w : World) :
  Forall (λ p, ∀ v, as_python p = Some v → settled v) l →
  sorted_reverse env l w = (w, sorted_by_version l).
Proof.
  intros Hl. unfold sorted_reverse, sorted_by_version.
  rewrite keys_of_settled by done. by destruct (with_keys l).
Qed.

(** ** [matches] as it runs, on the two spellings of an architecture *)

(** The method as it runs answers the same, and leaves the same, for the
    digits of an architecture as for the digits followed by [bit]. *)
Lemma matches_call_arch_digits (env : Env) (self : PythonVersion) (p : predicate)
    (a : string) (w : World) :
  isdigit a = true →
  matches_call env self (set_arch (Some a) p) w
  = matches_call env self (set_arch (Some (a ++ "bit")) p) w.
Proof.
  intros Ha. unfold matches_call.
  change (p_arch (set_arch (Some a) p)) with (Some a).
  change (p_arch (set_arch (Some (a ++ "bit")) p)) with (Some (a ++ "bit")).
  rewrite (isdigit_truthy a Ha), truthy_bit. simpl.
  by rewrite Ha, isdigit_bit.
Qed.
